(** * The proof-of-work mining client of [src/optimized_miner.py]

    A shallow embedding of the serialisation helpers, the coinbase builder,
    the template cache, the worker, the nonce allocator and the coordinator
    loop, followed by the properties the specification states about them.

    Python [bytes] are lists of [byte]; Python [int] is [Z]; a call that can
    raise returns a [result]; the answers of the node, of the clock and of
    [os.urandom] are explicit inputs of the functions that ask for them. *)

From Stdlib Require Import String Ascii.
From Stdlib Require Import Strings.Byte.
From Stdlib Require Import QArith Lqa.
From Stdlib Require Import ZArith List Lia Bool.
Import ListNotations.

#[local] Open Scope Z_scope.

(* ------------------------------------------------------------------ *)
(** ** Bytes and [struct.pack] *)

Definition bytes := list byte.

(** The byte holding the eight low-order bits of [z]. *)
Definition byte_of_Z (z : Z) : byte :=
  match Byte.of_N (Z.to_N (Z.land z 255)) with
  | Some b => b
  | None => x00
  end.

Definition Z_of_byte (b : byte) : Z := Z.of_N (Byte.to_N b).

(** [le_bytes k n]: the [k] low-order bytes of [n], least significant
    first. *)
Fixpoint le_bytes (k : nat) (n : Z) : bytes :=
  match k with
  | O => []
  | S k' => byte_of_Z (Z.land n 255) :: le_bytes k' (Z.shiftr n 8)
  end.

(** Exceptions the modelled code can raise. *)
Inductive exn : Type :=
| StructError   (* struct.pack: argument out of range *)
| ValueError.   (* bytes.fromhex / int(_, 16): malformed text *)

Inductive result (A : Type) : Type :=
| Ok (a : A)
| Raise (e : exn).
Arguments Ok {A} a.
Arguments Raise {A} e.

Definition bind {A B} (r : result A) (k : A -> result B) : result B :=
  match r with
  | Ok a => k a
  | Raise e => Raise e
  end.

Notation "x <- r ;; k" := (bind r (fun x => k))
  (at level 61, r at next level, right associativity).

(** [struct.pack] with a little-endian format: the value must fit the
    field, otherwise [struct.error] is raised. *)
Definition pack_unsigned (k : nat) (n : Z) : result bytes :=
  if (0 <=? n) && (n <? 2 ^ (8 * Z.of_nat k))
  then Ok (le_bytes k n) else Raise StructError.

Definition pack_B := pack_unsigned 1.   (* "<B" *)
Definition pack_H := pack_unsigned 2.   (* "<H" *)
Definition pack_I := pack_unsigned 4.   (* "<I" *)
Definition pack_Q := pack_unsigned 8.   (* "<Q" *)

(** "<i": signed 32 bits.  On a negative number [Z.land] and [Z.shiftr]
    read the two's complement, so [le_bytes] yields its bytes. *)
Definition pack_i (n : Z) : result bytes :=
  if (- 2 ^ 31 <=? n) && (n <? 2 ^ 31)
  then Ok (le_bytes 4 n) else Raise StructError.

(** [int.from_bytes(b, "big")]. *)
Definition int_from_bytes_big (b : bytes) : Z :=
  fold_left (fun acc x => acc * 256 + Z_of_byte x) b 0.

(* ------------------------------------------------------------------ *)
(** ** SHA-256 ([hashlib.sha256], FIPS 180-4) *)

Module SHA256.

(** Reduction to 32 bits. *)
Definition w32 (x : Z) : Z := Z.land x 0xffffffff.

Definition add32 (x y : Z) : Z := w32 (x + y).

Definition rotr (n x : Z) : Z :=
  Z.lor (Z.shiftr x n) (w32 (Z.shiftl x (32 - n))).

Definition Ch (x y z : Z) : Z :=
  Z.lxor (Z.land x y) (Z.land (w32 (Z.lnot x)) z).

Definition Maj (x y z : Z) : Z :=
  Z.lxor (Z.lxor (Z.land x y) (Z.land x z)) (Z.land y z).

Definition Sigma0 (x : Z) : Z :=
  Z.lxor (Z.lxor (rotr 2 x) (rotr 13 x)) (rotr 22 x).
Definition Sigma1 (x : Z) : Z :=
  Z.lxor (Z.lxor (rotr 6 x) (rotr 11 x)) (rotr 25 x).
Definition sigma0 (x : Z) : Z :=
  Z.lxor (Z.lxor (rotr 7 x) (rotr 18 x)) (Z.shiftr x 3).
Definition sigma1 (x : Z) : Z :=
  Z.lxor (Z.lxor (rotr 17 x) (rotr 19 x)) (Z.shiftr x 10).

(** The constants of the standard are fractional parts of roots of the
    first primes: [iroot k n] is the integer [k]-th root of [n], found bit
    by bit from bit [b] down. *)
Fixpoint iroot_from (k : Z) (n : Z) (b : nat) (r : Z) : Z :=
  let r' := r + 2 ^ Z.of_nat b in
  let r := if r' ^ k <=? n then r' else r in
  match b with
  | O => r
  | S b' => iroot_from k n b' r
  end.

Definition iroot (k n : Z) : Z := iroot_from k n 40 0.

(** The first 32 bits of the fractional part of the [k]-th root of [p]. *)
Definition root_fraction (k : Z) (p : Z) : Z :=
  w32 (iroot k (p * 2 ^ (32 * k))).

Definition is_prime (n : nat) : bool :=
  forallb (fun d => negb (Nat.eqb (Nat.modulo n d) 0)) (seq 2 (n - 2)).

(** The primes up to 311, the first 64. *)
Definition primes : list Z :=
  Eval vm_compute in map Z.of_nat (filter is_prime (seq 2 310)).

(** The round constants: from the cube roots of the first 64 primes. *)
Definition K : list Z :=
  Eval vm_compute in map (root_fraction 3) primes.

(** The eight working variables, also the chaining value. *)
Record state : Type := State {
  ha : Z; hb : Z; hc : Z; hd : Z; he : Z; hf : Z; hg : Z; hh : Z
}.

(** The initial value: from the square roots of the first 8 primes. *)
Definition H0 : state :=
  Eval vm_compute in
    match map (root_fraction 2) (firstn 8 primes) with
    | [a; b; c; d; e; f; g; h] => State a b c d e f g h
    | _ => State 0 0 0 0 0 0 0 0
    end.

(** Padding: the bit 1, zero bits up to 56 modulo 64 bytes, then the
    message length in bits as 8 big-endian bytes. *)
Definition be_bytes (k : nat) (n : Z) : bytes := rev (le_bytes k n).

Definition pad (msg : bytes) : bytes :=
  let len := Z.of_nat (length msg) in
  let zeros := Z.to_nat ((55 - len) mod 64) in
  msg ++ [x80] ++ repeat x00 zeros ++ be_bytes 8 (8 * len).

(** Big-endian 32-bit words of a byte string. *)
Fixpoint words (b : bytes) : list Z :=
  match b with
  | b0 :: b1 :: b2 :: b3 :: rest =>
      int_from_bytes_big [b0; b1; b2; b3] :: words rest
  | _ => []
  end.

(** The message schedule, newest word first: [sched] holds
    W(t-1), W(t-2), ..., and is extended [n] times. *)
Fixpoint extend (n : nat) (sched : list Z) : list Z :=
  match n with
  | O => sched
  | S n' =>
      let w := add32 (add32 (sigma1 (nth 1 sched 0)) (nth 6 sched 0))
                     (add32 (sigma0 (nth 14 sched 0)) (nth 15 sched 0)) in
      extend n' (w :: sched)
  end.

Definition schedule (block : list Z) : list Z :=
  rev (extend 48 (rev block)).

Definition round (s : state) (kw : Z * Z) : state :=
  let '(k, w) := kw in
  let t1 := add32 (add32 (add32 (hh s) (Sigma1 (he s)))
                         (add32 (Ch (he s) (hf s) (hg s)) k)) w in
  let t2 := add32 (Sigma0 (ha s)) (Maj (ha s) (hb s) (hc s)) in
  State (add32 t1 t2) (ha s) (hb s) (hc s)
        (add32 (hd s) t1) (he s) (hf s) (hg s).

Definition compress (s : state) (block : list Z) : state :=
  let r := fold_left round (combine K (schedule block)) s in
  State (add32 (ha s) (ha r)) (add32 (hb s) (hb r))
        (add32 (hc s) (hc r)) (add32 (hd s) (hd r))
        (add32 (he s) (he r)) (add32 (hf s) (hf r))
        (add32 (hg s) (hg r)) (add32 (hh s) (hh r)).

(** The 16-word blocks of a word list; [fuel] bounds the number of
    blocks. *)
Fixpoint blocks (fuel : nat) (ws : list Z) : list (list Z) :=
  match fuel, ws with
  | S fuel', _ :: _ => firstn 16 ws :: blocks fuel' (skipn 16 ws)
  | _, _ => []
  end.

Definition output (s : state) : bytes :=
  be_bytes 4 (ha s) ++ be_bytes 4 (hb s) ++ be_bytes 4 (hc s) ++
  be_bytes 4 (hd s) ++ be_bytes 4 (he s) ++ be_bytes 4 (hf s) ++
  be_bytes 4 (hg s) ++ be_bytes 4 (hh s).

Definition digest (msg : bytes) : bytes :=
  let ws := words (pad msg) in
  output (fold_left compress (blocks (length ws) ws) H0).

End SHA256.

(** [dsha256]: the digest of the digest. *)
Definition dsha256 (data : bytes) : bytes :=
  SHA256.digest (SHA256.digest data).

Arguments SHA256.digest msg : simpl never.
Arguments dsha256 data : simpl never.

(* ------------------------------------------------------------------ *)
(** ** Hexadecimal text: [bytes.hex], [bytes.fromhex], [int(_, 16)],
       the format [08x] *)

(** The lower-case digit of a value below 16. *)
Definition hex_digit (d : Z) : ascii :=
  if d <? 10 then ascii_of_nat (Z.to_nat (48 + d))
  else ascii_of_nat (Z.to_nat (87 + d)).

(** The value of a digit in base 16, upper or lower case. *)
Definition digit_value (c : ascii) : option Z :=
  let n := Z.of_nat (nat_of_ascii c) in
  if (48 <=? n) && (n <=? 57) then Some (n - 48)
  else if (97 <=? n) && (n <=? 102) then Some (n - 87)
  else if (65 <=? n) && (n <=? 70) then Some (n - 55)
  else None.

(** [Py_ISSPACE]. *)
Definition is_space (c : ascii) : bool :=
  let n := Z.of_nat (nat_of_ascii c) in
  ((9 <=? n) && (n <=? 13)) || (n =? 32).

(** [bytes.hex()]: two lower-case digits per byte. *)
Fixpoint hex (b : bytes) : string :=
  match b with
  | [] => EmptyString
  | x :: rest =>
      String (hex_digit (Z_of_byte x / 16))
        (String (hex_digit (Z_of_byte x mod 16)) (hex rest))
  end.

(** The white space [int] strips from a text: [Py_ISSPACE] and, beyond
    ASCII, the characters U+0085 and U+00A0 (a character of a text is
    taken as its code point, up to 255). *)
Definition is_text_space (c : ascii) : bool :=
  let n := Z.of_nat (nat_of_ascii c) in
  is_space c || (n =? 133) || (n =? 160).

Fixpoint skip (p : ascii -> bool) (s : string) : string :=
  match s with
  | String c rest => if p c then skip p rest else s
  | EmptyString => s
  end.

Definition skip_spaces : string -> string := skip is_space.

(** [bytes.fromhex(s)]: pairs of digits, white space allowed between
    the pairs; anything else raises [ValueError].  [fuel] bounds the
    number of pairs. *)
Fixpoint fromhex_aux (fuel : nat) (s : string) : result bytes :=
  match fuel with
  | O => Ok []
  | S fuel' =>
      match skip_spaces s with
      | EmptyString => Ok []
      | String c1 (String c2 rest) =>
          match digit_value c1, digit_value c2 with
          | Some top, Some bot =>
              tl <- fromhex_aux fuel' rest ;;
              Ok (byte_of_Z (top * 16 + bot) :: tl)
          | _, _ => Raise ValueError
          end
      | String _ EmptyString => Raise ValueError
      end
  end.

Definition fromhex (s : string) : result bytes :=
  fromhex_aux (S (String.length s)) s.

(** [int(s, 16)]: white space around, an optional sign, an optional
    prefix [0x] or [0X], then digits, single underscores allowed after the
    prefix and between digits. *)
Fixpoint digits16 (s : string) (prev_us : bool) (seen : bool) (acc : Z)
  : option (Z * string) :=
  match s with
  | String c rest =>
      if Ascii.eqb c "_"%char then
        if prev_us then None else digits16 rest true seen acc
      else
        match digit_value c with
        | Some d => digits16 rest false true (acc * 16 + d)
        | None => if prev_us || negb seen then None else Some (acc, s)
        end
  | EmptyString => if prev_us || negb seen then None else Some (acc, s)
  end.

Definition strip_sign (s : string) : Z * string :=
  match s with
  | String c rest =>
      if Ascii.eqb c "+"%char then (1, rest)
      else if Ascii.eqb c "-"%char then (-1, rest)
      else (1, s)
  | EmptyString => (1, s)
  end.

Definition strip_prefix (s : string) : string :=
  match s with
  | String c0 (String c1 rest) =>
      if Ascii.eqb c0 "0"%char
         && (Ascii.eqb c1 "x"%char || Ascii.eqb c1 "X"%char)
      then match rest with
           | String c2 rest' => if Ascii.eqb c2 "_"%char then rest' else rest
           | EmptyString => rest
           end
      else s
  | _ => s
  end.

Definition int16 (s : string) : result Z :=
  let '(sign, s1) := strip_sign (skip is_text_space s) in
  let s2 := strip_prefix s1 in
  match s2 with
  | String c _ =>
      if Ascii.eqb c "_"%char then Raise ValueError
      else match digits16 s2 false false 0 with
           | Some (v, rest) =>
               match skip is_text_space rest with
               | EmptyString => Ok (sign * v)
               | _ => Raise ValueError
               end
           | None => Raise ValueError
           end
  | EmptyString => Raise ValueError
  end.

(** The [k] low-order digits of [n] in base 16, most significant
    first. *)
Fixpoint hex_digits (k : nat) (n : Z) : string :=
  match k with
  | O => EmptyString
  | S k' =>
      String.append (hex_digits k' (n / 16))
                    (String (hex_digit (n mod 16)) EmptyString)
  end.

(** The number of digits of [n >= 0] in base 16 ([0] has one). *)
Definition hex_width (n : Z) : nat := S (Z.to_nat (Z.log2 n / 4)).

(** [f"{n:08x}"]: at least eight characters, zero-padded after the
    sign. *)
Definition format_08x (n : Z) : string :=
  if n <? 0
  then String "-"%char (hex_digits (Nat.max 7 (hex_width (- n))) (- n))
  else hex_digits (Nat.max 8 (hex_width n)) n.

(* ------------------------------------------------------------------ *)
(** ** The node, the clock and the process state *)

Definition NONCE_BLOCK_SIZE : Z := 1000.
Definition BLOCK_TEMPLATE_REFRESH_SECONDS : Q := 30%Q.

(** The fields of a [getblocktemplate] answer that the miner reads. *)
Record Template : Type := {
  height : Z;
  version : Z;
  previousblockhash : string;
  curtime : Z;
  bits : string;
  target : string
}.

(** What the outside world answers during one call of the worker: the
    clock reading of [time.time()], the results of [rpc_call] ([None] is a
    result that Python takes as false, which includes the [None] that
    [rpc_call] returns after an exception), and the bytes of
    [os.urandom(20)].  For [validateaddress], [Some h] is a dictionary
    holding ["scriptPubKey"] with the text [h]. *)
Record answers : Type := {
  now : Q;
  ans_getblocktemplate : option Template;
  ans_getnewaddress : option string;
  ans_validateaddress : option string;
  ans_urandom : bytes
}.

(** What the program does to the outside world. *)
Inductive event : Type :=
| Call_getnewaddress
| Call_validateaddress (addr : string)
| Call_getblocktemplate
| Call_submitblock (full_hex : string)
| Print_mined (nonce : Z).

(** An instance of [CachedBlockTemplate]. *)
Record CachedBlockTemplate : Type := {
  template : option Template;
  last_update : Q
}.

(** [CachedBlockTemplate.__init__]. *)
Definition CachedBlockTemplate_init : CachedBlockTemplate :=
  {| template := None; last_update := 0%Q |}.

(** The global [MINING_ADDR_HEX], the cache object [block_template] and
    the calls and prints made so far. *)
Record proc : Type := {
  MINING_ADDR_HEX : option bytes;
  block_template : CachedBlockTemplate;
  trace : list event
}.

(** State and exceptions: a computation runs from a process state to a
    result or an exception, and the state it leaves. *)
Definition M (A : Type) : Type := proc -> result A * proc.

Definition ret {A} (a : A) : M A := fun s => (Ok a, s).

Definition lift {A} (r : result A) : M A := fun s => (r, s).

Definition mbind {A B} (m : M A) (k : A -> M B) : M B :=
  fun s =>
    match m s with
    | (Ok a, s') => k a s'
    | (Raise e, s') => (Raise e, s')
    end.

Notation "x <~ m ;; k" := (mbind m (fun x => k))
  (at level 61, m at next level, right associativity).

(** The state [s] after the calls and prints [evs]. *)
Definition with_trace (s : proc) (evs : list event) : proc :=
  {| MINING_ADDR_HEX := MINING_ADDR_HEX s;
     block_template := block_template s;
     trace := trace s ++ evs |}.

Definition emit (e : event) : M unit :=
  fun s => (Ok tt, with_trace s [e]).

Definition get_global : M (option bytes) :=
  fun s => (Ok (MINING_ADDR_HEX s), s).

Definition set_global (v : bytes) : M unit :=
  fun s => (Ok tt, {| MINING_ADDR_HEX := Some v;
                      block_template := block_template s;
                      trace := trace s |}).

(* ------------------------------------------------------------------ *)
(** ** Serialisation: [compact_size], [get_mining_script],
       [create_coinbase] *)

(** A [bytes] literal of the source is read character by character, each
    character standing for the byte of its code point: [\u0001] is the byte
    1, [\u0004] the byte 4, and the characters U+00FD, U+00FE, U+00FF are the
    bytes 253, 254, 255.  The literal [b""] has no character. *)

Definition compact_size (n : Z) : result bytes :=
  if n <? 0xfd then pack_B n
  else if n <=? 0xffff then (b <- pack_H n ;; Ok (xfd :: b))
  else if n <=? 0xffffffff then (b <- pack_I n ;; Ok (xfe :: b))
  else (b <- pack_Q n ;; Ok (xff :: b)).

(** Python's [len]. *)
Definition len (b : bytes) : Z := Z.of_nat (length b).

Definition get_mining_script (env : answers) : M bytes :=
  g <~ get_global ;;
  match g with
  | Some ((_ :: _) as script) => ret script
  | _ =>
      _ <~ emit Call_getnewaddress ;;
      match ans_getnewaddress env with
      | None => ret (ans_urandom env)
      | Some addr =>
          _ <~ emit (Call_validateaddress addr) ;;
          match ans_validateaddress env with
          | Some h =>
              script <~ lift (fromhex h) ;;
              _ <~ set_global script ;;
              ret script
          | None => ret (ans_urandom env)
          end
      end
  end.

(** Python's [b * n] on [bytes]. *)
Definition bytes_mul (b : bytes) (n : Z) : bytes :=
  concat (repeat b (Z.to_nat n)).

Definition create_coinbase (height : Z) (msg : bytes) (env : answers)
  : M bytes :=
  let tx := [x01] ++ [x01] in
  let tx := tx ++ (bytes_mul [] 32 ++ [xff; xff; xff; xff]) in
  height_bytes <~ lift (pack_I height) ;;
  let script := [x04] ++ height_bytes ++ msg in
  sz <~ lift (compact_size (len script)) ;;
  let tx := tx ++ (sz ++ script) in
  let tx := tx ++ [xff; xff; xff; xff] in
  let tx := tx ++ [x01] in
  subsidy <~ lift (pack_Q (50 * 100000000)) ;;
  let tx := tx ++ subsidy in
  script_pub <~ get_mining_script env ;;
  sz_pub <~ lift (compact_size (len script_pub)) ;;
  let tx := tx ++ (sz_pub ++ script_pub) in
  let tx := tx ++ [] in
  ret tx.

(* ------------------------------------------------------------------ *)
(** ** The template cache *)

(** [CachedBlockTemplate.get] on the object [c], at clock reading [t],
    when the node would answer [tmpl].  Returns the template served, the
    object afterwards, and the calls made. *)
Definition CachedBlockTemplate_get (c : CachedBlockTemplate) (t : Q)
    (tmpl : option Template)
  : option Template * CachedBlockTemplate * list event :=
  let stale :=
    match template c with
    | None => true
    | Some _ =>
        negb (Qle_bool (t - last_update c) BLOCK_TEMPLATE_REFRESH_SECONDS)
    end in
  if stale then
    match tmpl with
    | Some new => (Some new, {| template := Some new; last_update := t |},
                   [Call_getblocktemplate])
    | None => (template c, c, [Call_getblocktemplate])
    end
  else (template c, c, []).

(** The assignment [block_template.last_update = 0] of the coordinator. *)
Definition invalidate (c : CachedBlockTemplate) : CachedBlockTemplate :=
  {| template := template c; last_update := 0%Q |}.

(** [block_template.get()] inside the process. *)
Definition cache_get (env : answers) : M (option Template) :=
  fun s =>
    let '(r, c', evs) :=
      CachedBlockTemplate_get (block_template s) (now env)
                              (ans_getblocktemplate env) in
    (Ok r, {| MINING_ADDR_HEX := MINING_ADDR_HEX s;
              block_template := c';
              trace := trace s ++ evs |}).

(* ------------------------------------------------------------------ *)
(** ** The worker: header assembly and nonce search *)

(** The 76 bytes in front of the nonce (the expression bound to
    [header_pre] in [btc_worker]), from the template and the coinbase
    transaction [cb]. *)
Definition header_pre (tmpl : Template) (cb : bytes) : result bytes :=
  let merkle := dsha256 cb in
  v <- pack_i (version tmpl) ;;
  prev <- fromhex (previousblockhash tmpl) ;;
  time <- pack_I (curtime tmpl) ;;
  nbits <- fromhex (bits tmpl) ;;
  Ok (v ++ rev prev ++ merkle ++ time ++ rev nbits).

(** The text handed to [submitblock] for a winning nonce. *)
Definition full_hex (pre : bytes) (nonce : Z) (cb : bytes) : string :=
  String.append (hex pre)
    (String.append (format_08x nonce)
       (String.append "01"%string (hex cb))).

(** The loop [for nonce in range(nonce, nonce + n)] of [btc_worker]. *)
Fixpoint search_loop (pre cb : bytes) (target : Z) (nonce : Z) (n : nat)
  : M bool :=
  match n with
  | O => ret false
  | S n' =>
      nb <~ lift (pack_I nonce) ;;
      let h := dsha256 (pre ++ nb) in
      if int_from_bytes_big (rev h) <? target then
        _ <~ emit (Print_mined nonce) ;;
        _ <~ emit (Call_submitblock (full_hex pre nonce cb)) ;;
        ret true
      else search_loop pre cb target (nonce + 1) n'
  end.

Definition search (pre cb : bytes) (target : Z)
    (nonce_range_start nonce_range_end : Z) : M bool :=
  search_loop pre cb target nonce_range_start
              (Z.to_nat (nonce_range_end - nonce_range_start)).

(** The tag of the coinbase script, [b"BTC_GROVER"]. *)
Definition BTC_GROVER : bytes :=
  [x42; x54; x43; x5f; x47; x52; x4f; x56; x45; x52].

Definition btc_worker (nonce_range_start nonce_range_end : Z)
    (env : answers) : M (option bool) :=
  tmpl <~ cache_get env ;;
  match tmpl with
  | None => ret None
  | Some tmpl =>
      cb <~ create_coinbase (height tmpl) BTC_GROVER env ;;
      pre <~ lift (header_pre tmpl cb) ;;
      tgt <~ lift (int16 (target tmpl)) ;;
      found <~ search pre cb tgt nonce_range_start nonce_range_end ;;
      ret (Some found)
  end.

(* ------------------------------------------------------------------ *)
(** ** The nonce allocator and the coordinator *)

(** [nonce_allocator] on a counter holding [counter]: the range handed
    out and the value the counter holds afterwards.  The counter is a
    [manager.Value], which holds a Python [int] of any size. *)
Definition nonce_allocator (counter : Z) : (Z * Z) * Z :=
  let start := counter in
  ((start, start + NONCE_BLOCK_SIZE), counter + NONCE_BLOCK_SIZE).

(** [n] calls in a row: the ranges in issuance order and the counter
    left. *)
Fixpoint allocate_many (n : nat) (counter : Z) : list (Z * Z) * Z :=
  match n with
  | O => ([], counter)
  | S n' =>
      let '(r, counter') := nonce_allocator counter in
      let '(rs, counter'') := allocate_many n' counter' in
      (r :: rs, counter'')
  end.

(** The state of [main]: the shared counter and the process. *)
Record coordinator : Type := {
  nonce_counter : Z;
  process : proc
}.

(** The dispatch loop of a wave, [for _ in range(CORES)]: worker number
    [i] of the wave is given the answers [envs i].  The model keeps one
    process state: the workers of a wave are run to completion one after
    the other, in submission order, and act on the coordinator's cache
    object and global (the executor's worker processes, which receive
    copies of the arguments, are not told apart); the outcome of each is
    kept for [f.result()]. *)
Fixpoint dispatch (n : nat) (i : nat) (envs : nat -> answers)
    (st : coordinator) : list (result (option bool)) * coordinator :=
  match n with
  | O => ([], st)
  | S n' =>
      let '((nonce_start, nonce_end), counter') :=
        nonce_allocator (nonce_counter st) in
      let '(out, p') :=
        btc_worker nonce_start nonce_end (envs i) (process st) in
      let '(outs, st') :=
        dispatch n' (S i) envs
                 {| nonce_counter := counter'; process := p' |} in
      (out :: outs, st')
  end.

(** The collection loop, [for f in futures: if f.result(): ... break]:
    [Ok true] when some result is true; an exception of a worker is raised
    again by [f.result()]. *)
Fixpoint collect (outs : list (result (option bool))) : result bool :=
  match outs with
  | [] => Ok false
  | Raise e :: _ => Raise e
  | Ok (Some true) :: _ => Ok true
  | Ok _ :: rest => collect rest
  end.

(** The reset after a find: the counter back to 0 and the cache
    invalidated. *)
Definition reset (st : coordinator) : coordinator :=
  {| nonce_counter := 0;
     process :=
       {| MINING_ADDR_HEX := MINING_ADDR_HEX (process st);
          block_template := invalidate (block_template (process st));
          trace := trace (process st) |} |}.

(** One turn of [while True]: the dispatch, then the collection.  The
    pause [time.sleep(0.05)] and the banner printed by [main] change no
    state and are left out. *)
Definition main_wave (CORES : nat) (envs : nat -> answers)
    (st : coordinator) : result coordinator :=
  let '(outs, st') := dispatch CORES 0 envs st in
  found <- collect outs ;;
  Ok (if found then reset st' else st').

(** The first [k] turns of the loop; turn [w] is given the answers
    [world w]. *)
Fixpoint main_loop (CORES : nat) (world : nat -> nat -> answers)
    (k : nat) (w : nat) (st : coordinator) : result coordinator :=
  match k with
  | O => Ok st
  | S k' =>
      st' <- main_wave CORES (world w) st ;;
      main_loop CORES world k' (S w) st'
  end.

(** The state in which [main] enters its loop: the counter at 0, a new
    cache object, after the first call of [get_mining_script]. *)
Definition main_init (env : answers) : result coordinator :=
  let p0 := {| MINING_ADDR_HEX := None;
               block_template := CachedBlockTemplate_init;
               trace := [] |} in
  match get_mining_script env p0 with
  | (Ok _, p) => Ok {| nonce_counter := 0; process := p |}
  | (Raise e, _) => Raise e
  end.

(* ------------------------------------------------------------------ *)
(** ** Notions used to state the properties *)

(** The number a worker compares with the target for the nonce [n]: the
    double digest of the preimage followed by the nonce in 4 little-endian
    bytes, byte-reversed and read as a big-endian number. *)
Definition digest_int (pre : bytes) (n : Z) : Z :=
  int_from_bytes_big (rev (dsha256 (pre ++ le_bytes 4 n))).

(** The range [r] holds [x]. *)
Definition in_range (r : Z * Z) (x : Z) : Prop := fst r <= x < snd r.

(** Two ranges with no nonce in common. *)
Definition disjoint (r1 r2 : Z * Z) : Prop :=
  forall x, ~ (in_range r1 x /\ in_range r2 x).

(** The [i]-th range of a run of allocations that starts at 0. *)
Definition nth_range (i : nat) : Z * Z :=
  (NONCE_BLOCK_SIZE * Z.of_nat i, NONCE_BLOCK_SIZE * (Z.of_nat i + 1)).

(** The scenario of the specification: the template, with the target
    left open, a node that hands it out but resolves no address, and a
    process whose payout script is already 20 zero bytes. *)
Definition scenario_template (tgt : string) : Template :=
  {| height := 100;
     version := 0x20000000;
     previousblockhash :=
       "0000000000000000000000000000000000000000000000000000000000000001";
     curtime := 1690000000;
     bits := "1d00ffff";
     target := tgt |}.

Definition scenario_answers (tgt : string) (t : Q) : answers :=
  {| now := t;
     ans_getblocktemplate := Some (scenario_template tgt);
     ans_getnewaddress := None;
     ans_validateaddress := None;
     ans_urandom := repeat x00 20 |}.

Definition scenario_proc : proc :=
  {| MINING_ADDR_HEX := Some (repeat x00 20);
     block_template := CachedBlockTemplate_init;
     trace := [] |}.

(** The largest 256-bit target. *)
Definition permissive_target : string :=
  "ffffffffffffffffffffffffffffffffffffffffffffffffffffffffffffffff".


(** What one call of [get] serves, leaves and calls. *)
Definition get_served (c : CachedBlockTemplate) (t : Q)
    (tmpl : option Template) : option Template :=
  fst (fst (CachedBlockTemplate_get c t tmpl)).


(** A node that resolves no address, while [os.urandom] gives [r]. *)
Definition failing_answers (r : bytes) : answers :=
  {| now := 0%Q;
     ans_getblocktemplate := None;
     ans_getnewaddress := None;
     ans_validateaddress := None;
     ans_urandom := r |}.

(** A process that has resolved nothing yet. *)
Definition fresh_proc : proc :=
  {| MINING_ADDR_HEX := None;
     block_template := CachedBlockTemplate_init;
     trace := [] |}.

(** A run with no find: every turn, the node hands out the template of
    the scenario with the target 0, and turn [w] happens 31 seconds after
    turn [w - 1]. *)
Definition no_find_world (w i : nat) : answers :=
  scenario_answers "0" (1690000000 + 31 * inject_Z (Z.of_nat w))%Q.

(** [main] entering its loop in the scenario. *)
Definition scenario_start : coordinator :=
  {| nonce_counter := 0; process := scenario_proc |}.

(** The header preimage of the scenario, for the coinbase [cb]. *)
Definition scenario_pre (cb : bytes) : bytes :=
  le_bytes 4 0x20000000 ++ rev (repeat x00 31 ++ [x01]) ++ dsha256 cb ++
  le_bytes 4 1690000000 ++ rev [x1d; x00; xff; xff].

(** The coinbase of the scenario, as [create_coinbase] builds it for the
    height 100, the tag BTC_GROVER and the payout script of 20 zero
    bytes. *)
Definition scenario_cb : bytes :=
  [x01; x01] ++ [xff; xff; xff; xff] ++
  [x0f] ++ ([x04] ++ le_bytes 4 100 ++ BTC_GROVER) ++
  [xff; xff; xff; xff] ++ [x01] ++ le_bytes 8 5000000000 ++
  [x14] ++ repeat x00 20.

(** [n] is the first nonce of [lo, hi) whose number is strictly below the
    target. *)
Definition first_winning_nonce (pre : bytes) (target lo hi n : Z) : Prop :=
  lo <= n < hi /\
  digest_int pre n < target /\
  forall m, lo <= m < n -> target <= digest_int pre m.

(** No nonce of [lo, hi) has its number strictly below the target. *)
Definition no_winning_nonce (pre : bytes) (target lo hi : Z) : Prop :=
  forall m, lo <= m < hi -> target <= digest_int pre m.

(** The state after the find of the nonce [n]: the print, then the
    submission. *)
Definition after_find (s : proc) (pre cb : bytes) (n : Z) : proc :=
  with_trace s [Print_mined n; Call_submitblock (full_hex pre n cb)].

(** The process of the scenario after [get] fetched the template at the
    clock reading [t]. *)
Definition scenario_fetched (tgt : string) (t : Q) : proc :=
  {| MINING_ADDR_HEX := Some (repeat x00 20);
     block_template :=
       {| template := Some (scenario_template tgt); last_update := t |};
     trace := [Call_getblocktemplate] |}.

(** A turn in which the node hands out the template of the scenario with
    the largest target. *)
Definition find_world (i : nat) : answers :=
  scenario_answers permissive_target 1690000000.

(** The coordinator of the scenario with the counter at 1000. *)
Definition scenario_second_range : coordinator :=
  {| nonce_counter := 1000; process := scenario_proc |}.

(** A node that resolves an address to a script of 22 bytes. *)
Definition payout_script : bytes := x00 :: x14 :: repeat x00 19 ++ [x01].

Definition resolving_answers : answers :=
  {| now := 0%Q;
     ans_getblocktemplate := None;
     ans_getnewaddress := Some "bcrt1qexample"%string;
     ans_validateaddress :=
       Some "00140000000000000000000000000000000000000001"%string;
     ans_urandom := repeat x00 20 |}.

(** A call of [submitblock]. *)
Definition is_submit (e : event) : bool :=
  match e with
  | Call_submitblock _ => true
  | _ => false
  end.

(** From [s] to [s'] the trace only grew, and by no call of
    [submitblock]. *)
Definition quiet (s s' : proc) : Prop :=
  exists evs, trace s' = trace s ++ evs /\ existsb is_submit evs = false.

(** A node whose [validateaddress] answers with the [scriptPubKey]
    [h]. *)
Definition script_answers (h : string) : answers :=
  {| now := 0%Q;
     ans_getblocktemplate := None;
     ans_getnewaddress := Some "bcrt1qexample"%string;
     ans_validateaddress := Some h;
     ans_urandom := repeat x00 20 |}.

(** A template whose previous block hash is the text of one byte and
    whose bits are an empty text. *)
Definition short_template : Template :=
  {| height := 100;
     version := 1;
     previousblockhash := "00";
     curtime := 0;
     bits := "";
     target := "1" |}.

(** An hour after the fetch of the scenario, the node being down. *)
Definition stale_answers : answers :=
  {| now := 1690003600%Q;
     ans_getblocktemplate := None;
     ans_getnewaddress := None;
     ans_validateaddress := None;
     ans_urandom := [] |}.

(** The process of the scenario after the find of the nonce 1000 and the
    reset that follows it. *)
Definition scenario_after_reset : proc :=
  process
    (reset
       {| nonce_counter := 2000;
          process :=
            after_find (scenario_fetched permissive_target 1690000000)
                       (scenario_pre scenario_cb) scenario_cb 1000 |}).


(* ------------------------------------------------------------------ *)
(** ** Basic facts: lengths, packing, the state monad *)

(** Settles the comparisons of a goal that the bounds at hand decide. *)
Ltac decide_tests :=
  repeat match goal with
         | |- context [?a <? ?b] =>
             first [ replace (a <? b) with true
                       by (symmetry; apply Z.ltb_lt; lia)
                   | replace (a <? b) with false
                       by (symmetry; apply Z.ltb_ge; lia) ]
         | |- context [?a <=? ?b] =>
             first [ replace (a <=? b) with true
                       by (symmetry; apply Z.leb_le; lia)
                   | replace (a <=? b) with false
                       by (symmetry; apply Z.leb_gt; lia) ]
         end.

Lemma le_bytes_length (k : nat) (n : Z) : length (le_bytes k n) = k.
Proof.
  revert n; induction k as [|k IH]; intro n; simpl; [reflexivity|].
  now rewrite IH.
Qed.

Lemma be_bytes_length (k : nat) (n : Z) : length (SHA256.be_bytes k n) = k.
Proof. unfold SHA256.be_bytes. now rewrite length_rev, le_bytes_length. Qed.

Lemma digest_length (msg : bytes) : length (SHA256.digest msg) = 32%nat.
Proof.
  unfold SHA256.digest, SHA256.output.
  repeat rewrite length_app. repeat rewrite be_bytes_length. reflexivity.
Qed.

Lemma dsha256_length (data : bytes) : length (dsha256 data) = 32%nat.
Proof. apply digest_length. Qed.

(** The digest of the three bytes [abc], as the standard gives it. *)
Example digest_abc :
  hex (SHA256.digest [x61; x62; x63]) =
  "ba7816bf8f01cfea414140de5dae2223b00361a396177a9cb410ff61f20015ad"%string.
Proof. vm_compute. reflexivity. Qed.

Lemma pack_unsigned_in_range (k : nat) (n : Z) :
  0 <= n < 2 ^ (8 * Z.of_nat k) -> pack_unsigned k n = Ok (le_bytes k n).
Proof.
  intros [H0 H1]. unfold pack_unsigned.
  apply Z.leb_le in H0. apply Z.ltb_lt in H1. now rewrite H0, H1.
Qed.

Lemma pack_unsigned_too_big (k : nat) (n : Z) :
  2 ^ (8 * Z.of_nat k) <= n -> pack_unsigned k n = Raise StructError.
Proof.
  intro H. unfold pack_unsigned.
  replace (n <? 2 ^ (8 * Z.of_nat k)) with false
    by (symmetry; apply Z.ltb_ge; exact H).
  now rewrite andb_false_r.
Qed.

Lemma pack_unsigned_negative (k : nat) (n : Z) :
  n < 0 -> pack_unsigned k n = Raise StructError.
Proof.
  intro H. unfold pack_unsigned.
  replace (0 <=? n) with false by (symmetry; apply Z.leb_gt; exact H).
  reflexivity.
Qed.

Lemma pack_I_in_range (n : Z) :
  0 <= n < 2 ^ 32 -> pack_I n = Ok (le_bytes 4 n).
Proof. intro H. apply pack_unsigned_in_range. simpl. lia. Qed.

Lemma pack_I_too_big (n : Z) : 2 ^ 32 <= n -> pack_I n = Raise StructError.
Proof. intro H. apply pack_unsigned_too_big. simpl. lia. Qed.

Lemma Z_of_byte_range (b : byte) : 0 <= Z_of_byte b < 256.
Proof.
  unfold Z_of_byte. pose proof (Byte.to_N_bounded b) as H.
  split; [apply N2Z.is_nonneg|]. lia.
Qed.

Lemma fold_from_bytes_nonneg (b : bytes) (acc : Z) :
  0 <= acc ->
  0 <= fold_left (fun a x => a * 256 + Z_of_byte x) b acc.
Proof.
  revert acc; induction b as [|x b IH]; intros acc H; simpl; [exact H|].
  apply IH. pose proof (Z_of_byte_range x). lia.
Qed.

Lemma int_from_bytes_big_nonneg (b : bytes) : 0 <= int_from_bytes_big b.
Proof. apply fold_from_bytes_nonneg. lia. Qed.

Lemma with_trace_app (s : proc) (a b : list event) :
  with_trace (with_trace s a) b = with_trace s (a ++ b).
Proof. unfold with_trace; simpl. now rewrite app_assoc. Qed.

(* ------------------------------------------------------------------ *)
(** ** The nonce search *)

Lemma digest_int_nonneg (pre : bytes) (n : Z) : 0 <= digest_int pre n.
Proof. unfold digest_int. apply int_from_bytes_big_nonneg. Qed.

Section Search.

Variables (pre cb : bytes) (target : Z).

(** One turn of the loop on a nonce that fits 32 bits. *)
Lemma search_loop_step (nonce : Z) (n : nat) (s : proc) :
  0 <= nonce < 2 ^ 32 ->
  search_loop pre cb target nonce (S n) s =
  if digest_int pre nonce <? target
  then (Ok true, after_find s pre cb nonce)
  else search_loop pre cb target (nonce + 1) n s.
Proof.
  intro H. unfold digest_int, after_find. cbn [search_loop].
  unfold mbind at 1, lift at 1. rewrite (pack_I_in_range nonce H).
  destruct (_ <? target); [|reflexivity].
  unfold mbind, emit, ret. rewrite with_trace_app. reflexivity.
Qed.

(** One turn of the loop on a nonce that does not fit. *)
Lemma search_loop_overflow (nonce : Z) (n : nat) (s : proc) :
  2 ^ 32 <= nonce ->
  search_loop pre cb target nonce (S n) s = (Raise StructError, s).
Proof.
  intro H. cbn [search_loop]. unfold mbind, lift.
  rewrite (pack_I_too_big nonce H). reflexivity.
Qed.

(** The loop over [n] nonces from [nonce]: either it stops at the first
    nonce whose number is below the target, or no nonce of the range is
    below it and the state is untouched. *)
Lemma search_loop_first (n : nat) :
  forall (nonce : Z) (s : proc),
    0 <= nonce -> nonce + Z.of_nat n <= 2 ^ 32 ->
    (exists k,
        first_winning_nonce pre target nonce (nonce + Z.of_nat n) k /\
        search_loop pre cb target nonce n s =
        (Ok true, after_find s pre cb k))
    \/
    (no_winning_nonce pre target nonce (nonce + Z.of_nat n) /\
     search_loop pre cb target nonce n s = (Ok false, s)).
Proof.
  unfold first_winning_nonce, no_winning_nonce.
  induction n as [|n IH]; intros nonce s Hlo Hhi.
  - right. split; [intros m Hm; lia | reflexivity].
  - rewrite search_loop_step by lia.
    destruct (digest_int pre nonce <? target) eqn:Hcmp.
    + apply Z.ltb_lt in Hcmp. left. exists nonce.
      split; [|reflexivity]. split; [lia|]. split; [exact Hcmp|].
      intros m Hm; lia.
    + apply Z.ltb_ge in Hcmp.
      destruct (IH (nonce + 1) s)
        as [[k ((Hk & Hlt & Hmin) & Hrun)] | [Hall Hrun]]; try lia.
      * left. exists k. split; [|exact Hrun].
        split; [lia|]. split; [exact Hlt|].
        intros m Hm. destruct (Z.eq_dec m nonce) as [->|Hne];
          [exact Hcmp | apply Hmin; lia].
      * right. split; [|exact Hrun].
        intros m Hm. destruct (Z.eq_dec m nonce) as [->|Hne];
          [exact Hcmp | apply Hall; lia].
Qed.

(** The loop over a range that runs past 2^32 with no winning nonce
    below 2^32: it raises when it reaches 2^32. *)
Lemma search_loop_past_32_bits (n : nat) :
  forall (nonce : Z) (s : proc),
    0 <= nonce <= 2 ^ 32 -> 2 ^ 32 < nonce + Z.of_nat n ->
    no_winning_nonce pre target nonce (2 ^ 32) ->
    search_loop pre cb target nonce n s = (Raise StructError, s).
Proof.
  unfold no_winning_nonce.
  induction n as [|n IH]; intros nonce s Hlo Hhi Hnone; [lia|].
  destruct (Z.eq_dec nonce (2 ^ 32)) as [E|E].
  - apply search_loop_overflow. lia.
  - rewrite search_loop_step by lia.
    replace (digest_int pre nonce <? target) with false
      by (symmetry; apply Z.ltb_ge; apply Hnone; lia).
    apply IH; [lia | lia |]. intros m Hm. apply Hnone. lia.
Qed.

(** C1. For every range [start, end) with 0 <= start <= end <= 2^32,
    every preimage (of 76 bytes or any other length) and every target, the
    search either returns true, having printed and submitted the smallest
    nonce of the range whose double digest, byte-reversed and read as a
    big-endian number, is strictly below the target; or no nonce of the
    range is strictly below the target (equality included) and it returns
    false after the whole range, with no call and no print. *)
Theorem search_smallest_winning_nonce
    (nonce_range_start nonce_range_end : Z) (s : proc) :
  0 <= nonce_range_start ->
  nonce_range_start <= nonce_range_end ->
  nonce_range_end <= 2 ^ 32 ->
  (exists n,
      first_winning_nonce pre target nonce_range_start nonce_range_end n /\
      search pre cb target nonce_range_start nonce_range_end s =
      (Ok true, after_find s pre cb n))
  \/
  (no_winning_nonce pre target nonce_range_start nonce_range_end /\
   search pre cb target nonce_range_start nonce_range_end s = (Ok false, s)).
Proof.
  intros H0 H1 H2. unfold search.
  pose proof (search_loop_first
                (Z.to_nat (nonce_range_end - nonce_range_start))
                nonce_range_start s) as H.
  rewrite Z2Nat.id in H by lia.
  replace (nonce_range_start + (nonce_range_end - nonce_range_start))
    with nonce_range_end in H by lia.
  apply H; lia.
Qed.

(** No number is below a target of 0 or less. *)
Lemma search_nonpositive_target
    (nonce_range_start nonce_range_end : Z) (s : proc) :
  target <= 0 ->
  0 <= nonce_range_start -> nonce_range_start <= nonce_range_end ->
  nonce_range_end <= 2 ^ 32 ->
  search pre cb target nonce_range_start nonce_range_end s = (Ok false, s).
Proof.
  intros Ht H0 H1 H2. unfold search.
  destruct (search_loop_first
              (Z.to_nat (nonce_range_end - nonce_range_start))
              nonce_range_start s) as [[k ((_ & Hlt & _) & _)] | [_ Hrun]];
    try lia.
  - pose proof (digest_int_nonneg pre k). lia.
  - exact Hrun.
Qed.

(** A range within 32 bits is searched to a result. *)
Lemma search_returns
    (nonce_range_start nonce_range_end : Z) (s : proc) :
  0 <= nonce_range_start -> nonce_range_end <= 2 ^ 32 ->
  exists found s',
    search pre cb target nonce_range_start nonce_range_end s =
    (Ok found, s').
Proof.
  intros H0 H2. unfold search.
  destruct (Z_le_gt_dec nonce_range_start nonce_range_end) as [Hle|Hgt].
  - destruct (search_loop_first
                (Z.to_nat (nonce_range_end - nonce_range_start))
                nonce_range_start s) as [[k (_ & Hrun)] | [_ Hrun]];
      try lia; rewrite Hrun; eexists; eexists; reflexivity.
  - replace (Z.to_nat (nonce_range_end - nonce_range_start)) with 0%nat
      by lia.
    eexists; eexists; reflexivity.
Qed.

(** A range that runs past 2^32 with no winning nonce below 2^32 ends in
    [struct.error]. *)
Lemma search_raises
    (nonce_range_start nonce_range_end : Z) (s : proc) :
  0 <= nonce_range_start <= 2 ^ 32 -> 2 ^ 32 < nonce_range_end ->
  no_winning_nonce pre target nonce_range_start (2 ^ 32) ->
  search pre cb target nonce_range_start nonce_range_end s =
  (Raise StructError, s).
Proof.
  intros H0 H2 Hnone. unfold search.
  apply search_loop_past_32_bits; [exact H0 | lia | exact Hnone].
Qed.

End Search.

(** C1 at the range [0, 1000) over a preimage of 76 zero bytes. *)
Lemma search_smallest_winning_nonce_witness :
  (exists n,
      first_winning_nonce (repeat x00 76) (2 ^ 255) 0 1000 n /\
      search (repeat x00 76) [] (2 ^ 255) 0 1000 scenario_proc =
      (Ok true, after_find scenario_proc (repeat x00 76) [] n))
  \/
  (no_winning_nonce (repeat x00 76) (2 ^ 255) 0 1000 /\
   search (repeat x00 76) [] (2 ^ 255) 0 1000 scenario_proc =
   (Ok false, scenario_proc)).
Proof.
  apply (search_smallest_winning_nonce
           (repeat x00 76) [] (2 ^ 255) 0 1000 scenario_proc); lia.
Defined.

(* ------------------------------------------------------------------ *)
(** ** The header assembler *)

Lemma pack_i_in_range (n : Z) :
  - 2 ^ 31 <= n < 2 ^ 31 -> pack_i n = Ok (le_bytes 4 n).
Proof.
  intros [H0 H1]. unfold pack_i.
  apply Z.leb_le in H0. apply Z.ltb_lt in H1. now rewrite H0, H1.
Qed.

Lemma header_pre_ok (tmpl : Template) (cb prev nbits : bytes) :
  - 2 ^ 31 <= version tmpl < 2 ^ 31 ->
  0 <= curtime tmpl < 2 ^ 32 ->
  fromhex (previousblockhash tmpl) = Ok prev ->
  fromhex (bits tmpl) = Ok nbits ->
  header_pre tmpl cb =
  Ok (le_bytes 4 (version tmpl) ++ rev prev ++ dsha256 cb ++
      le_bytes 4 (curtime tmpl) ++ rev nbits).
Proof.
  intros Hv Ht Hprev Hbits. unfold header_pre.
  rewrite (pack_i_in_range _ Hv), Hprev, (pack_I_in_range _ Ht), Hbits.
  reflexivity.
Qed.

(** C2. For a template whose version fits 32 signed bits, whose curtime
    fits 32 unsigned bits, whose previousblockhash is the text of 32 bytes
    and whose bits is the text of 4 bytes, and for every coinbase
    transaction, the header preimage is the version in 4 little-endian
    bytes, the previous block hash byte-reversed, the double digest of the
    coinbase transaction alone, curtime in 4 little-endian bytes, and bits
    byte-reversed: 76 bytes; with the 4 little-endian bytes of a nonce it
    has 80 bytes. *)
Theorem header_pre_layout (tmpl : Template) (cb prev nbits : bytes) :
  - 2 ^ 31 <= version tmpl < 2 ^ 31 ->
  0 <= curtime tmpl < 2 ^ 32 ->
  fromhex (previousblockhash tmpl) = Ok prev -> length prev = 32%nat ->
  fromhex (bits tmpl) = Ok nbits -> length nbits = 4%nat ->
  exists pre,
    header_pre tmpl cb = Ok pre /\
    pre = le_bytes 4 (version tmpl) ++ rev prev ++ dsha256 cb ++
          le_bytes 4 (curtime tmpl) ++ rev nbits /\
    length (le_bytes 4 (version tmpl)) = 4%nat /\
    length (rev prev) = 32%nat /\
    length (dsha256 cb) = 32%nat /\
    length (le_bytes 4 (curtime tmpl)) = 4%nat /\
    length (rev nbits) = 4%nat /\
    length pre = 76%nat /\
    forall nonce, 0 <= nonce < 2 ^ 32 ->
      pack_I nonce = Ok (le_bytes 4 nonce) /\
      length (pre ++ le_bytes 4 nonce) = 80%nat.
Proof.
  intros Hv Ht Hprev Lprev Hbits Lbits.
  eexists. split.
  - apply header_pre_ok; eassumption.
  - split; [reflexivity|].
    assert (L : length (le_bytes 4 (version tmpl) ++ rev prev ++
                        dsha256 cb ++ le_bytes 4 (curtime tmpl) ++
                        rev nbits) = 76%nat).
    { repeat rewrite length_app. repeat rewrite length_rev.
      repeat rewrite le_bytes_length.
      rewrite dsha256_length, Lprev, Lbits. reflexivity. }
    repeat rewrite length_rev. repeat rewrite le_bytes_length.
    rewrite dsha256_length, Lprev, Lbits.
    repeat (split; [reflexivity|]). split; [exact L|].
    intros nonce Hn. split; [apply pack_I_in_range; exact Hn|].
    rewrite length_app, L, le_bytes_length. reflexivity.
Qed.

(** C2 at the template of the scenario and an empty coinbase. *)
Lemma header_pre_layout_witness :
  exists pre,
    header_pre (scenario_template permissive_target) [] = Ok pre /\
    pre = le_bytes 4 0x20000000 ++
          rev (repeat x00 31 ++ [x01]) ++ dsha256 [] ++
          le_bytes 4 1690000000 ++ rev [x1d; x00; xff; xff] /\
    length (le_bytes 4 0x20000000) = 4%nat /\
    length (rev (repeat x00 31 ++ [x01])) = 32%nat /\
    length (dsha256 []) = 32%nat /\
    length (le_bytes 4 1690000000) = 4%nat /\
    length (rev [x1d; x00; xff; xff]) = 4%nat /\
    length pre = 76%nat /\
    forall nonce, 0 <= nonce < 2 ^ 32 ->
      pack_I nonce = Ok (le_bytes 4 nonce) /\
      length (pre ++ le_bytes 4 nonce) = 80%nat.
Proof.
  apply (header_pre_layout (scenario_template permissive_target) []
           (repeat x00 31 ++ [x01]) [x1d; x00; xff; xff]).
  - simpl; lia.
  - simpl; lia.
  - reflexivity.
  - reflexivity.
  - reflexivity.
  - reflexivity.
Defined.

(* ------------------------------------------------------------------ *)
(** ** The coinbase builder *)

(** What [create_coinbase] returns, for every height that fits 32 bits:
    the bytes 01 01, the all-ones index, the script with its size in
    front, the sequence ff ff ff ff, the output count 01, the subsidy, the
    payout script with its size in front.  The bytes depend on the height,
    the tag and the payout script only. *)
Lemma create_coinbase_layout (height : Z) (msg : bytes) (env : answers)
    (s s' : proc) (sz script_pub sz_pub : bytes) :
  0 <= height < 2 ^ 32 ->
  compact_size (len ([x04] ++ le_bytes 4 height ++ msg)) = Ok sz ->
  get_mining_script env s = (Ok script_pub, s') ->
  compact_size (len script_pub) = Ok sz_pub ->
  create_coinbase height msg env s =
  (Ok ([x01; x01] ++ [xff; xff; xff; xff] ++
       sz ++ ([x04] ++ le_bytes 4 height ++ msg) ++
       [xff; xff; xff; xff] ++ [x01] ++ le_bytes 8 5000000000 ++
       sz_pub ++ script_pub),
   s').
Proof.
  intros Hh Hsz Hscript Hpub. unfold create_coinbase.
  unfold mbind at 1, lift at 1. rewrite (pack_I_in_range height Hh).
  unfold mbind at 1, lift at 1. rewrite Hsz.
  unfold mbind at 1, lift at 1.
  change (pack_Q (50 * 100000000)) with (Ok (le_bytes 8 5000000000)).
  unfold mbind at 1. rewrite Hscript.
  unfold mbind at 1, lift at 1. rewrite Hpub.
  unfold ret, bytes_mul. cbn [Z.to_nat Pos.to_nat Pos.iter_op Nat.add
                               repeat concat].
  rewrite app_nil_r. repeat rewrite <- app_assoc. reflexivity.
Qed.



(* ------------------------------------------------------------------ *)
(** ** Compact sizes *)

Lemma low_byte (n : Z) : 0 <= n < 256 -> Z.land n 255 = n.
Proof.
  intro H. change 255 with (Z.ones 8). rewrite Z.land_ones by lia.
  apply Z.mod_small. change (2 ^ 8) with 256. lia.
Qed.

Lemma Z_of_byte_of_Z (n : Z) : 0 <= n < 256 -> Z_of_byte (byte_of_Z n) = n.
Proof.
  intro H. unfold Z_of_byte, byte_of_Z. rewrite low_byte by exact H.
  destruct (Byte.of_N (Z.to_N n)) as [b|] eqn:E.
  - apply Byte.to_of_N in E. rewrite E. lia.
  - apply Byte.of_N_None_iff in E. lia.
Qed.

(** C9, as the code has it.  Below 0xFD: the single byte of value [n];
    from 0xFD to 0xFFFF: the byte 0xFD and 2 little-endian bytes; above, up
    to 0xFFFFFFFF: the byte 0xFE and 4 little-endian bytes; above, below
    2^64: the byte 0xFF and 8 little-endian bytes; from 2^64 on:
    [struct.error]. *)
Theorem compact_size_encoding (n : Z) :
  (0 <= n < 0xfd ->
     compact_size n = Ok [byte_of_Z n] /\ Z_of_byte (byte_of_Z n) = n) /\
  (0xfd <= n <= 0xffff -> compact_size n = Ok (xfd :: le_bytes 2 n)) /\
  (0xffff < n <= 0xffffffff -> compact_size n = Ok (xfe :: le_bytes 4 n)) /\
  (0xffffffff < n < 2 ^ 64 -> compact_size n = Ok (xff :: le_bytes 8 n)) /\
  (2 ^ 64 <= n -> compact_size n = Raise StructError).
Proof.
  unfold compact_size, pack_B, pack_H, pack_I, pack_Q.
  split; [|split; [|split; [|split]]]; intro H.
  - split; [|apply Z_of_byte_of_Z; lia].
    decide_tests. rewrite pack_unsigned_in_range by (simpl; lia).
    cbn [le_bytes]. rewrite low_byte by lia. reflexivity.
  - decide_tests. rewrite pack_unsigned_in_range by (simpl; lia).
    reflexivity.
  - decide_tests. rewrite pack_unsigned_in_range by (simpl; lia).
    reflexivity.
  - decide_tests. rewrite pack_unsigned_in_range by (simpl; lia).
    reflexivity.
  - assert (18446744073709551616 <= n) by (simpl in H; lia).
    decide_tests. rewrite pack_unsigned_too_big by (simpl; lia).
    reflexivity.
Qed.

(** C9 fails at 2^64: no encoding is returned, [struct.pack("<Q", n)]
    raises. *)
Lemma compact_size_raises_at_2_64 :
  compact_size (2 ^ 64) = Raise StructError /\
  compact_size (2 ^ 64) <> Ok (xff :: le_bytes 8 (2 ^ 64)).
Proof. split; [reflexivity | discriminate]. Qed.

(* ------------------------------------------------------------------ *)
(** ** The nonce allocator *)

(** [n] allocations from any counter value. *)
Lemma allocate_many_from (n : nat) :
  forall c,
    allocate_many n c =
    (map (fun i => (c + NONCE_BLOCK_SIZE * Z.of_nat i,
                    c + NONCE_BLOCK_SIZE * (Z.of_nat i + 1))) (seq 0 n),
     c + NONCE_BLOCK_SIZE * Z.of_nat n).
Proof.
  unfold NONCE_BLOCK_SIZE.
  induction n as [|n IH]; intro c.
  - simpl. f_equal. lia.
  - cbn [allocate_many]. unfold nonce_allocator, NONCE_BLOCK_SIZE.
    rewrite IH. cbn [seq map]. rewrite <- seq_shift, map_map.
    f_equal.
    + f_equal; [f_equal; lia|].
      apply map_ext. intro i. f_equal; lia.
    + lia.
Qed.

Lemma allocate_many_from_zero (n : nat) :
  allocate_many n 0 =
  (map nth_range (seq 0 n), NONCE_BLOCK_SIZE * Z.of_nat n).
Proof. rewrite allocate_many_from. reflexivity. Qed.

Lemma nth_error_map_seq {A} (f : nat -> A) (n : nat) :
  forall s i r, nth_error (map f (seq s n)) i = Some r ->
                r = f (s + i)%nat /\ (i < n)%nat.
Proof.
  induction n as [|n IH]; intros s i r H.
  - destruct i; discriminate.
  - destruct i as [|i]; simpl in H.
    + injection H as <-. rewrite Nat.add_0_r. split; [reflexivity|lia].
    + apply IH in H. destruct H as [-> Hi].
      split; [f_equal; lia | lia].
Qed.

(** C5. From a counter at 0, [N] allocations return, in issuance order,
    the ranges [1000 i, 1000 (i + 1)) for i = 0 .. N-1 and leave the counter
    at 1000 N; two ranges issued at different positions share no nonce, and
    a nonce is in some returned range exactly when it is in [0, 1000 N). *)
Theorem allocator_ranges (N : nat) :
  fst (allocate_many N 0) = map nth_range (seq 0 N) /\
  snd (allocate_many N 0) = 1000 * Z.of_nat N /\
  (forall i j r1 r2,
      i <> j ->
      nth_error (fst (allocate_many N 0)) i = Some r1 ->
      nth_error (fst (allocate_many N 0)) j = Some r2 ->
      disjoint r1 r2) /\
  (forall x,
      (exists r, In r (fst (allocate_many N 0)) /\ in_range r x) <->
      0 <= x < 1000 * Z.of_nat N).
Proof.
  rewrite allocate_many_from_zero. cbn [fst snd].
  split; [reflexivity|]. split; [reflexivity|]. split.
  - intros i j r1 r2 Hij H1 H2.
    apply nth_error_map_seq in H1. apply nth_error_map_seq in H2.
    destruct H1 as [-> _], H2 as [-> _].
    intros x [[A B] [C D]]. unfold nth_range, NONCE_BLOCK_SIZE in *.
    cbn [fst snd] in *. lia.
  - intro x. split.
    + intros [r [Hin [A B]]]. apply in_map_iff in Hin.
      destruct Hin as [i [<- Hi]]. apply in_seq in Hi.
      unfold nth_range, NONCE_BLOCK_SIZE in *. cbn [fst snd] in *. lia.
    + intros [A B]. exists (nth_range (Z.to_nat (x / 1000))). split.
      * apply in_map. apply in_seq.
        assert (x / 1000 < Z.of_nat N) by (apply Z.div_lt_upper_bound; lia).
        assert (0 <= x / 1000) by (apply Z.div_pos; lia). lia.
      * unfold in_range, nth_range, NONCE_BLOCK_SIZE. cbn [fst snd].
        assert (0 <= x / 1000) by (apply Z.div_pos; lia).
        rewrite Z2Nat.id by assumption.
        pose proof (Z.mul_div_le x 1000 ltac:(lia)).
        pose proof (Z.mul_succ_div_gt x 1000 ltac:(lia)). lia.
Qed.

(* ------------------------------------------------------------------ *)
(** ** Nonces beyond 32 bits *)

(** C10. A nonce from 0 to 2^32 - 1 is packed into its 4 little-endian
    bytes, and a range within 32 bits is searched to a result.  A nonce from
    2^32 on makes the packing raise [struct.error] (it is not reduced modulo
    2^32), and a range that runs past 2^32 with no winning nonce below 2^32
    ends in that error.  The allocator does not keep ranges within 32
    bits: its counter is 1000 N after N allocations, so for every bound some
    allocation hands out a range that starts at or above the bound. *)
Theorem nonce_packing_precondition :
  (forall n, 0 <= n < 2 ^ 32 -> pack_I n = Ok (le_bytes 4 n)) /\
  (forall pre cb target lo hi s,
     0 <= lo -> hi <= 2 ^ 32 ->
     exists found s', search pre cb target lo hi s = (Ok found, s')) /\
  (forall n, 2 ^ 32 <= n ->
     pack_I n = Raise StructError /\
     pack_I n <> Ok (le_bytes 4 (n mod 2 ^ 32))) /\
  (forall pre cb target lo hi s,
     0 <= lo <= 2 ^ 32 -> 2 ^ 32 < hi ->
     no_winning_nonce pre target lo (2 ^ 32) ->
     search pre cb target lo hi s = (Raise StructError, s)) /\
  (forall N, snd (allocate_many N 0) = 1000 * Z.of_nat N) /\
  (forall bound, exists N r,
     nth_error (fst (allocate_many (S N) 0)) N = Some r /\ bound <= fst r).
Proof.
  split; [|split; [|split; [|split; [|split]]]].
  - intros n H. apply pack_I_in_range; exact H.
  - intros. apply search_returns; assumption.
  - intros n H. split; [apply pack_I_too_big; exact H|].
    rewrite pack_I_too_big by exact H. discriminate.
  - intros. apply search_raises; assumption.
  - intro N. rewrite allocate_many_from_zero. reflexivity.
  - intro bound. exists (Z.to_nat bound), (nth_range (Z.to_nat bound)).
    rewrite allocate_many_from_zero. cbn [fst]. split.
    + rewrite nth_error_map.
      rewrite (nth_error_nth' _ 0%nat) by (rewrite length_seq; lia).
      rewrite seq_nth by lia. reflexivity.
    + unfold nth_range, NONCE_BLOCK_SIZE. cbn [fst]. lia.
Qed.

(* ------------------------------------------------------------------ *)
(** ** The template cache *)

Lemma get_when_empty (t : Q) (tmpl : option Template) (lu : Q) :
  CachedBlockTemplate_get {| template := None; last_update := lu |} t tmpl =
  match tmpl with
  | Some new => (Some new, {| template := Some new; last_update := t |},
                 [Call_getblocktemplate])
  | None => (None, {| template := None; last_update := lu |},
             [Call_getblocktemplate])
  end.
Proof. unfold CachedBlockTemplate_get; simpl. destruct tmpl; reflexivity. Qed.




(* ------------------------------------------------------------------ *)
(** ** The payout script *)

(** With a non-empty script in [MINING_ADDR_HEX], a call returns it and
    touches nothing. *)
Lemma get_mining_script_cached (env : answers) (s : proc) (b : byte)
    (rest : bytes) :
  MINING_ADDR_HEX s = Some (b :: rest) ->
  get_mining_script env s = (Ok (b :: rest), s).
Proof.
  intro H. unfold get_mining_script, mbind, get_global. rewrite H.
  reflexivity.
Qed.

(** C8, as the code has it.  A script already resolved is returned by
    every call, with no call to the node and no change of state.  A call
    that resolves a non-empty script stores it, and every later call
    returns these same bytes.  A call whose resolution fails returns the
    bytes of [os.urandom] and stores nothing: the global is as before, so
    the next call asks the node again. *)
Theorem get_mining_script_caching :
  (forall env s b rest,
      MINING_ADDR_HEX s = Some (b :: rest) ->
      get_mining_script env s = (Ok (b :: rest), s)) /\
  (forall env s addr h b rest,
      MINING_ADDR_HEX s = None \/ MINING_ADDR_HEX s = Some [] ->
      ans_getnewaddress env = Some addr ->
      ans_validateaddress env = Some h ->
      fromhex h = Ok (b :: rest) ->
      exists s',
        get_mining_script env s = (Ok (b :: rest), s') /\
        MINING_ADDR_HEX s' = Some (b :: rest) /\
        forall env', get_mining_script env' s' = (Ok (b :: rest), s')) /\
  (forall env s,
      MINING_ADDR_HEX s = None \/ MINING_ADDR_HEX s = Some [] ->
      ans_getnewaddress env = None \/ ans_validateaddress env = None ->
      exists s',
        get_mining_script env s = (Ok (ans_urandom env), s') /\
        MINING_ADDR_HEX s' = MINING_ADDR_HEX s /\
        block_template s' = block_template s /\
        exists calls, trace s' = trace s ++ Call_getnewaddress :: calls).
Proof.
  split; [|split].
  - intros env s b rest H. apply get_mining_script_cached; exact H.
  - intros env s addr h b rest Hg Ha Hv Hh.
    eexists. split; [|split].
    + unfold get_mining_script, mbind, get_global, emit, lift, set_global,
        ret.
      destruct Hg as [Hg|Hg]; rewrite Hg; rewrite Ha, Hv; cbn [fst snd];
        rewrite Hh; reflexivity.
    + reflexivity.
    + intro env'. apply get_mining_script_cached. reflexivity.
  - intros env s Hg Hfail.
    unfold get_mining_script, mbind, get_global, emit, lift, set_global, ret.
    destruct (ans_getnewaddress env) as [addr|] eqn:Ha.
    + destruct Hfail as [Hfail|Hfail]; [discriminate|]. rewrite Hfail.
      destruct Hg as [Hg|Hg]; rewrite Hg; eexists;
        (split; [reflexivity|]); cbn [with_trace MINING_ADDR_HEX
                                       block_template trace];
        (split; [exact Hg|]); (split; [reflexivity|]);
        exists [Call_validateaddress addr]; rewrite <- app_assoc;
        reflexivity.
    + destruct Hg as [Hg|Hg]; rewrite Hg; eexists;
        (split; [reflexivity|]); cbn [with_trace MINING_ADDR_HEX
                                       block_template trace];
        (split; [exact Hg|]); (split; [reflexivity|]);
        exists []; reflexivity.
Qed.

(** C8 fails when the node resolves nothing: two calls in a row return
    the two answers of [os.urandom], here 20 bytes 0x00 and then 20 bytes
    0xFF. *)
Lemma get_mining_script_placeholder_differs :
  exists s1 s2,
    get_mining_script (failing_answers (repeat x00 20)) fresh_proc =
    (Ok (repeat x00 20), s1) /\
    get_mining_script (failing_answers (repeat xff 20)) s1 =
    (Ok (repeat xff 20), s2) /\
    repeat x00 20 <> repeat xff 20 /\
    trace s2 = [Call_getnewaddress; Call_getnewaddress].
Proof.
  eexists. eexists. split; [reflexivity|]. split; [reflexivity|].
  split; [discriminate | reflexivity].
Qed.

(* ------------------------------------------------------------------ *)
(** ** The worker as a whole *)

(** [btc_worker] through its stages. *)
Lemma btc_worker_steps (nonce_range_start nonce_range_end : Z)
    (env : answers) (s s1 s2 s3 : proc) (tmpl : Template)
    (cb pre : bytes) (tgt : Z) (found : bool) :
  cache_get env s = (Ok (Some tmpl), s1) ->
  create_coinbase (height tmpl) BTC_GROVER env s1 = (Ok cb, s2) ->
  header_pre tmpl cb = Ok pre ->
  int16 (target tmpl) = Ok tgt ->
  search pre cb tgt nonce_range_start nonce_range_end s2 = (Ok found, s3) ->
  btc_worker nonce_range_start nonce_range_end env s = (Ok (Some found), s3).
Proof.
  intros Hget Hcb Hpre Htgt Hsearch. unfold btc_worker.
  unfold mbind at 1. rewrite Hget.
  unfold mbind at 1. rewrite Hcb.
  unfold mbind at 1, lift at 1. rewrite Hpre.
  unfold mbind at 1, lift at 1. rewrite Htgt.
  unfold mbind at 1. rewrite Hsearch. reflexivity.
Qed.

Lemma scenario_header (tgt : string) (cb : bytes) :
  header_pre (scenario_template tgt) cb = Ok (scenario_pre cb).
Proof.
  apply (header_pre_ok (scenario_template tgt) cb
           (repeat x00 31 ++ [x01]) [x1d; x00; xff; xff]).
  - simpl; lia.
  - simpl; lia.
  - reflexivity.
  - reflexivity.
Qed.

Lemma scenario_coinbase (tgt : string) (t : Q) (s : proc) :
  MINING_ADDR_HEX s = Some (repeat x00 20) ->
  create_coinbase 100 BTC_GROVER (scenario_answers tgt t) s =
  (Ok scenario_cb, s).
Proof.
  intro H.
  apply (create_coinbase_layout 100 BTC_GROVER (scenario_answers tgt t)
           s s [x0f] (repeat x00 20) [x14]).
  - lia.
  - reflexivity.
  - apply (get_mining_script_cached _ s x00 (repeat x00 19) H).
  - reflexivity.
Qed.

(* ------------------------------------------------------------------ *)
(** ** The coordinator *)

(** A wave advances the counter by 1000 for each worker dispatched,
    whatever the workers do. *)
Lemma dispatch_counter (n : nat) :
  forall i envs st,
    nonce_counter (snd (dispatch n i envs st)) =
    nonce_counter st + NONCE_BLOCK_SIZE * Z.of_nat n.
Proof.
  induction n as [|n IH]; intros i envs st.
  - cbn [dispatch snd]. lia.
  - cbn [dispatch]. unfold nonce_allocator.
    destruct (btc_worker (nonce_counter st)
                (nonce_counter st + NONCE_BLOCK_SIZE) (envs i) (process st))
      as [out p'].
    specialize (IH (S i) envs
                  {| nonce_counter := nonce_counter st + NONCE_BLOCK_SIZE;
                     process := p' |}).
    destruct (dispatch n (S i) envs _) as [outs st'].
    cbn [snd nonce_counter] in *. rewrite IH. lia.
Qed.

(** A wave of one worker that finds nothing. *)
Lemma main_wave_single_no_find (envs : nat -> answers) (c : Z)
    (p p' : proc) :
  btc_worker c (c + NONCE_BLOCK_SIZE) (envs 0%nat) p =
  (Ok (Some false), p') ->
  main_wave 1 envs {| nonce_counter := c; process := p |} =
  Ok {| nonce_counter := c + NONCE_BLOCK_SIZE; process := p' |}.
Proof.
  intro H. unfold main_wave. cbn [dispatch]. unfold nonce_allocator.
  cbn [nonce_counter process]. rewrite H. reflexivity.
Qed.

(** C6, as the code has it.  A turn of the loop leaves the counter at 0,
    and the cache invalidated, exactly when one of its workers reports a
    find; in a turn without a find the counter stays advanced by 1000 per
    worker dispatched, whatever templates the workers fetched. *)
Theorem counter_reset_only_after_find
    (CORES : nat) (envs : nat -> answers) (st : coordinator) :
  let d := dispatch CORES 0 envs st in
  nonce_counter (snd d) = nonce_counter st + 1000 * Z.of_nat CORES /\
  (collect (fst d) = Ok true ->
   main_wave CORES envs st = Ok (reset (snd d)) /\
   nonce_counter (reset (snd d)) = 0 /\
   last_update (block_template (process (reset (snd d)))) = 0%Q) /\
  (collect (fst d) = Ok false ->
   main_wave CORES envs st = Ok (snd d)) /\
  (forall e, collect (fst d) = Raise e ->
   main_wave CORES envs st = Raise e).
Proof.
  intro d. split; [apply dispatch_counter|].
  unfold main_wave. fold d. destruct d as [outs st']. cbn [fst snd].
  split; [|split].
  - intro H. rewrite H. repeat split.
  - intro H. rewrite H. reflexivity.
  - intros e H. rewrite H. reflexivity.
Qed.

(** In the run with no find, the worker of every turn returns false. *)
Lemma no_find_worker (w : nat) (c : Z) (s s1 : proc) :
  MINING_ADDR_HEX s = Some (repeat x00 20) ->
  cache_get (no_find_world w 0) s =
  (Ok (Some (scenario_template "0")), s1) ->
  MINING_ADDR_HEX s1 = Some (repeat x00 20) ->
  0 <= c -> c + NONCE_BLOCK_SIZE <= 2 ^ 32 ->
  btc_worker c (c + NONCE_BLOCK_SIZE) (no_find_world w 0) s =
  (Ok (Some false), s1).
Proof.
  intros Hs Hget Hs1 Hc0 Hc1.
  apply (btc_worker_steps c (c + NONCE_BLOCK_SIZE) (no_find_world w 0)
           s s1 s1 s1 (scenario_template "0") scenario_cb
           (scenario_pre scenario_cb) 0 false).
  - exact Hget.
  - apply scenario_coinbase. exact Hs1.
  - apply scenario_header.
  - reflexivity.
  - apply search_nonpositive_target; unfold NONCE_BLOCK_SIZE in *; lia.
Qed.

(** The first turn of the run with no find: the template is fetched, the
    range [0, 1000) is searched in vain, the counter is left at 1000. *)
Lemma no_find_first_turn :
  main_wave 1 (no_find_world 0) scenario_start =
  Ok {| nonce_counter := 1000;
        process :=
          {| MINING_ADDR_HEX := Some (repeat x00 20);
             block_template :=
               {| template := Some (scenario_template "0");
                  last_update := now (no_find_world 0 0) |};
             trace := [Call_getblocktemplate] |} |}.
Proof.
  unfold scenario_start.
  rewrite (main_wave_single_no_find (no_find_world 0) 0 scenario_proc
             {| MINING_ADDR_HEX := Some (repeat x00 20);
                block_template :=
                  {| template := Some (scenario_template "0");
                     last_update := now (no_find_world 0 0) |};
                trace := [Call_getblocktemplate] |}); [reflexivity|].
  apply no_find_worker.
  - reflexivity.
  - vm_compute. reflexivity.
  - reflexivity.
  - lia.
  - unfold NONCE_BLOCK_SIZE; lia.
Qed.

(** The second turn, 31 seconds later: the template is fetched again,
    the range [1000, 2000) is searched in vain. *)
Lemma no_find_second_turn :
  main_wave 1 (no_find_world 1)
    {| nonce_counter := 1000;
       process :=
         {| MINING_ADDR_HEX := Some (repeat x00 20);
            block_template :=
              {| template := Some (scenario_template "0");
                 last_update := now (no_find_world 0 0) |};
            trace := [Call_getblocktemplate] |} |} =
  Ok {| nonce_counter := 2000;
        process :=
          {| MINING_ADDR_HEX := Some (repeat x00 20);
             block_template :=
               {| template := Some (scenario_template "0");
                  last_update := now (no_find_world 1 0) |};
             trace := [Call_getblocktemplate; Call_getblocktemplate] |} |}.
Proof.
  rewrite (main_wave_single_no_find (no_find_world 1) 1000 _
             {| MINING_ADDR_HEX := Some (repeat x00 20);
                block_template :=
                  {| template := Some (scenario_template "0");
                     last_update := now (no_find_world 1 0) |};
                trace := [Call_getblocktemplate; Call_getblocktemplate] |});
    [reflexivity|].
  apply no_find_worker.
  - reflexivity.
  - vm_compute. reflexivity.
  - reflexivity.
  - unfold NONCE_BLOCK_SIZE; lia.
  - unfold NONCE_BLOCK_SIZE; lia.
Qed.

(** C6 fails on a refresh without a find.  One worker per turn, the
    target 0.  After the first turn the counter is 1000, one template was
    fetched and nothing was found.  The second turn comes 31 seconds later:
    its range is allocated from the counter at 1000, not 0, and is
    [1000, 2000); its worker fetches the template again, as the second call
    in the trace and the new [last_update] show. *)
Lemma counter_not_reset_on_refresh :
  exists st1 st2,
    main_loop 1 no_find_world 1 0 scenario_start = Ok st1 /\
    nonce_counter st1 = 1000 /\
    nonce_counter st1 <> 0 /\
    trace (process st1) = [Call_getblocktemplate] /\
    nonce_allocator (nonce_counter st1) = ((1000, 2000), 2000) /\
    main_loop 1 no_find_world 2 0 scenario_start = Ok st2 /\
    main_wave 1 (no_find_world 1) st1 = Ok st2 /\
    trace (process st2) = [Call_getblocktemplate; Call_getblocktemplate] /\
    last_update (block_template (process st2)) = now (no_find_world 1 0) /\
    nonce_counter st2 = 2000.
Proof.
  eexists. eexists.
  split.
  { cbn [main_loop]. rewrite no_find_first_turn. reflexivity. }
  split; [reflexivity|]. split; [discriminate|].
  split; [reflexivity|]. split; [reflexivity|].
  split.
  { cbn [main_loop]. rewrite no_find_first_turn. cbn [bind].
    rewrite no_find_second_turn. reflexivity. }
  split; [exact no_find_second_turn|].
  split; [reflexivity|]. split; reflexivity.
Qed.

(* ------------------------------------------------------------------ *)
(** ** The block submitted *)

Lemma hex_app (a b : bytes) : hex (a ++ b) = String.append (hex a) (hex b).
Proof.
  induction a as [|x a IH]; [reflexivity|].
  cbn [hex app String.append]. now rewrite IH.
Qed.



(** The nonce 1000 wins in the scenario under the largest target. *)
Lemma scenario_nonce_1000_wins :
  (digest_int (scenario_pre scenario_cb) 1000 <? 2 ^ 256 - 1) = true.
Proof. vm_compute. reflexivity. Qed.

(** The worker of the scenario on the range [1000, 2000): it fetches
    the template and finds the nonce 1000. *)
Lemma scenario_worker_finds_1000 :
  btc_worker 1000 2000 (scenario_answers permissive_target 1690000000)
             scenario_proc =
  (Ok (Some true),
   after_find (scenario_fetched permissive_target 1690000000)
              (scenario_pre scenario_cb) scenario_cb 1000).
Proof.
  eapply btc_worker_steps.
  - vm_compute. reflexivity.
  - apply scenario_coinbase. reflexivity.
  - apply scenario_header.
  - vm_compute. reflexivity.
  - unfold search. change (Z.to_nat (2000 - 1000)) with (S 999).
    rewrite search_loop_step by lia.
    change (Z.pos
              115792089237316195423570985008687907853269984665640564039457584007913129639935)
      with (2 ^ 256 - 1).
    rewrite scenario_nonce_1000_wins. reflexivity.
Qed.


(* ------------------------------------------------------------------ *)
(** ** The properties on concrete inputs *)

(** C5 with three allocations. *)
Lemma allocator_ranges_witness :
  fst (allocate_many 3 0) = [(0, 1000); (1000, 2000); (2000, 3000)] /\
  snd (allocate_many 3 0) = 3000 /\
  disjoint (0, 1000) (1000, 2000) /\
  ((exists r, In r (fst (allocate_many 3 0)) /\ in_range r 2999) <->
   0 <= 2999 < 3000).
Proof.
  destruct (allocator_ranges 3) as (H1 & H2 & H3 & H4).
  split; [exact H1|]. split; [exact H2|]. split; [|exact (H4 2999)].
  apply (H3 0%nat 1%nat); [discriminate | reflexivity | reflexivity].
Defined.

(** C6 on a turn with a find: the worker is given [1000, 2000), finds the
    nonce 1000, and the turn ends with the counter at 0 and the cache
    invalidated. *)
Lemma counter_reset_only_after_find_witness :
  collect (fst (dispatch 1 0 find_world scenario_second_range)) = Ok true /\
  main_wave 1 find_world scenario_second_range =
  Ok (reset (snd (dispatch 1 0 find_world scenario_second_range))) /\
  nonce_counter
    (reset (snd (dispatch 1 0 find_world scenario_second_range))) = 0 /\
  last_update
    (block_template
       (process
          (reset (snd (dispatch 1 0 find_world scenario_second_range))))) =
  0%Q.
Proof.
  assert (Hc : collect (fst (dispatch 1 0 find_world scenario_second_range))
               = Ok true).
  { cbn [dispatch]. unfold nonce_allocator, scenario_second_range.
    cbn [nonce_counter process]. change (1000 + NONCE_BLOCK_SIZE) with 2000.
    unfold find_world. rewrite scenario_worker_finds_1000. reflexivity. }
  split; [exact Hc|].
  pose proof (counter_reset_only_after_find 1 find_world
                scenario_second_range) as H.
  cbv zeta in H. destruct H as (_ & Hfind & _). exact (Hfind Hc).
Defined.


(** C8 on a node that resolves the address: the script is returned,
    stored, and returned by every later call. *)
Lemma get_mining_script_caching_witness :
  exists s',
    get_mining_script resolving_answers fresh_proc =
    (Ok payout_script, s') /\
    MINING_ADDR_HEX s' = Some payout_script /\
    forall env', get_mining_script env' s' = (Ok payout_script, s').
Proof.
  destruct get_mining_script_caching as (_ & Hresolve & _).
  apply (Hresolve resolving_answers fresh_proc "bcrt1qexample"%string
           "00140000000000000000000000000000000000000001"%string
           x00 (x14 :: repeat x00 19 ++ [x01])).
  - left. reflexivity.
  - reflexivity.
  - reflexivity.
  - reflexivity.
Defined.

(** C9 at one size of each width. *)
Lemma compact_size_encoding_witness :
  compact_size 15 = Ok [x0f] /\
  compact_size 300 = Ok [xfd; x2c; x01] /\
  compact_size 70000 = Ok [xfe; x70; x11; x01; x00] /\
  compact_size (2 ^ 32) =
  Ok [xff; x00; x00; x00; x00; x01; x00; x00; x00].
Proof.
  split; [|split; [|split]].
  - destruct (compact_size_encoding 15) as (H & _).
    exact (proj1 (H ltac:(lia))).
  - destruct (compact_size_encoding 300) as (_ & H & _).
    exact (H ltac:(lia)).
  - destruct (compact_size_encoding 70000) as (_ & _ & H & _).
    exact (H ltac:(lia)).
  - destruct (compact_size_encoding (2 ^ 32)) as (_ & _ & _ & H & _).
    exact (H ltac:(simpl; lia)).
Defined.

(** C10 at the edge of 32 bits: the largest nonce is packed, 2^32 is
    not, the range [4294967000, 4294968000) with the target 0 ends in the
    error, and some allocation starts at or above 2^32. *)
Lemma nonce_packing_precondition_witness :
  pack_I (2 ^ 32 - 1) = Ok [xff; xff; xff; xff] /\
  pack_I (2 ^ 32) = Raise StructError /\
  search (repeat x00 76) [] 0 4294967000 4294968000 scenario_proc =
  (Raise StructError, scenario_proc) /\
  exists N r,
    nth_error (fst (allocate_many (S N) 0)) N = Some r /\ 2 ^ 32 <= fst r.
Proof.
  destruct nonce_packing_precondition
    as (Hfit & _ & Hbig & Hraise & _ & Hgrow).
  split; [exact (Hfit (2 ^ 32 - 1) ltac:(simpl; lia))|].
  split; [exact (proj1 (Hbig (2 ^ 32) ltac:(lia)))|].
  split; [|exact (Hgrow (2 ^ 32))].
  apply Hraise.
  - simpl; lia.
  - simpl; lia.
  - intros m _. apply digest_int_nonneg.
Defined.

(* ------------------------------------------------------------------ *)
(** ** Packing and reading back *)

Lemma int_from_bytes_big_snoc (b : bytes) (x : byte) :
  int_from_bytes_big (b ++ [x]) = int_from_bytes_big b * 256 + Z_of_byte x.
Proof. unfold int_from_bytes_big. rewrite fold_left_app. reflexivity. Qed.

Lemma Z_of_byte_low_bits (z : Z) : Z_of_byte (byte_of_Z z) = z mod 256.
Proof.
  assert (H : 0 <= z mod 256 < 256) by (apply Z.mod_pos_bound; lia).
  rewrite <- (Z_of_byte_of_Z (z mod 256) H). f_equal.
  unfold byte_of_Z. change 255 with (Z.ones 8).
  rewrite !Z.land_ones by lia. change (2 ^ 8) with 256.
  rewrite Z.mod_mod by lia. reflexivity.
Qed.

(** The [k] bytes of [n], read back least significant first, are [n]
    modulo 256^k: for a negative [n], its two's complement. *)
Lemma le_bytes_value (k : nat) :
  forall n,
    int_from_bytes_big (rev (le_bytes k n)) = n mod 2 ^ (8 * Z.of_nat k).
Proof.
  induction k as [|k IH]; intro n.
  - cbn [le_bytes rev]. change (2 ^ (8 * Z.of_nat 0)) with 1.
    rewrite Z.mod_1_r. reflexivity.
  - cbn [le_bytes rev]. rewrite int_from_bytes_big_snoc, IH.
    rewrite Z_of_byte_low_bits.
    change 255 with (Z.ones 8). rewrite Z.land_ones by lia.
    rewrite Z.mod_mod by lia. rewrite Z.shiftr_div_pow2 by lia.
    change (2 ^ 8) with 256.
    replace (2 ^ (8 * Z.of_nat (S k))) with (256 * 2 ^ (8 * Z.of_nat k)).
    + rewrite Z.rem_mul_r by (try apply Z.pow_pos_nonneg; lia). lia.
    + replace (8 * Z.of_nat (S k)) with (8 + 8 * Z.of_nat k) by lia.
      rewrite Z.pow_add_r by lia. reflexivity.
Qed.

Lemma Ok_inj {A} (a b : A) : Ok a = Ok b -> a = b.
Proof. intro H. injection H as H. exact H. Qed.

Lemma pack_unsigned_inv (k : nat) (n : Z) (b : bytes) :
  pack_unsigned k n = Ok b ->
  0 <= n < 2 ^ (8 * Z.of_nat k) /\ b = le_bytes k n.
Proof.
  unfold pack_unsigned. intro H.
  destruct (0 <=? n) eqn:E0; [|discriminate].
  destruct (n <? 2 ^ (8 * Z.of_nat k)) eqn:E1; [|discriminate].
  apply Z.leb_le in E0. apply Z.ltb_lt in E1.
  injection H as <-. split; [lia | reflexivity].
Qed.

(** X1. Whatever [struct.pack] packs in an unsigned little-endian field
    of [k] bytes has [k] bytes and, reversed and read as a big-endian
    number (the way the worker reads a digest), is the number packed. *)
Theorem pack_unsigned_read_back (k : nat) (n : Z) (b : bytes) :
  pack_unsigned k n = Ok b ->
  length b = k /\ int_from_bytes_big (rev b) = n.
Proof.
  intro H. apply pack_unsigned_inv in H. destruct H as [Hn ->].
  split; [apply le_bytes_length|].
  rewrite le_bytes_value. apply Z.mod_small. exact Hn.
Qed.

(** X1 at the nonce 1000 in the field of [pack_I]. *)
Lemma pack_unsigned_read_back_witness :
  length [xe8; x03; x00; x00] = 4%nat /\
  int_from_bytes_big (rev [xe8; x03; x00; x00]) = 1000.
Proof.
  exact (pack_unsigned_read_back 4 1000 [xe8; x03; x00; x00] eq_refl).
Defined.

(** X2. The version packed by the format [<i] has 4 bytes and reads
    back as the version modulo 2^32: itself when it is not negative,
    2^32 more when it is. *)
Theorem pack_i_read_back (n : Z) (b : bytes) :
  pack_i n = Ok b ->
  length b = 4%nat /\
  int_from_bytes_big (rev b) = (if n <? 0 then n + 2 ^ 32 else n).
Proof.
  unfold pack_i. intro H.
  destruct (- 2 ^ 31 <=? n) eqn:E0; [|discriminate].
  destruct (n <? 2 ^ 31) eqn:E1; [|discriminate].
  apply Z.leb_le in E0. apply Z.ltb_lt in E1.
  apply Ok_inj in H. subst b. split; [apply le_bytes_length|].
  rewrite le_bytes_value. change (2 ^ (8 * Z.of_nat 4)) with (2 ^ 32).
  destruct (n <? 0) eqn:En.
  - apply Z.ltb_lt in En.
    replace n with (n + 2 ^ 32 + (-1) * 2 ^ 32) at 1 by lia.
    rewrite Z.mod_add by lia. apply Z.mod_small. lia.
  - apply Z.ltb_ge in En. apply Z.mod_small. lia.
Qed.

(** X2 at the version -1. *)
Lemma pack_i_read_back_witness :
  length [xff; xff; xff; xff] = 4%nat /\
  int_from_bytes_big (rev [xff; xff; xff; xff]) = -1 + 2 ^ 32.
Proof.
  exact (pack_i_read_back (-1) [xff; xff; xff; xff] eq_refl).
Defined.

(* ------------------------------------------------------------------ *)
(** ** Compact sizes are self-delimiting *)

Lemma le_bytes_inj (k : nat) (n m : Z) :
  0 <= n < 2 ^ (8 * Z.of_nat k) -> 0 <= m < 2 ^ (8 * Z.of_nat k) ->
  le_bytes k n = le_bytes k m -> n = m.
Proof.
  intros Hn Hm E.
  apply (f_equal (fun b => int_from_bytes_big (rev b))) in E.
  rewrite !le_bytes_value in E. rewrite !Z.mod_small in E by assumption.
  exact E.
Qed.

(** The cases of [compact_size], read from a result. *)
Lemma compact_size_inv (n : Z) (b : bytes) :
  compact_size n = Ok b ->
  (0 <= n < 0xfd /\ b = le_bytes 1 n) \/
  (0xfd <= n <= 0xffff /\ b = xfd :: le_bytes 2 n) \/
  (0xffff < n <= 0xffffffff /\ b = xfe :: le_bytes 4 n) \/
  (0xffffffff < n < 2 ^ 64 /\ b = xff :: le_bytes 8 n).
Proof.
  unfold compact_size, pack_B, pack_H, pack_I, pack_Q. intro H.
  destruct (n <? 253) eqn:E1.
  { apply Z.ltb_lt in E1. apply pack_unsigned_inv in H.
    destruct H as [Hn ->]. left. split; [lia | reflexivity]. }
  apply Z.ltb_ge in E1.
  destruct (n <=? 65535) eqn:E2.
  { apply Z.leb_le in E2.
    destruct (pack_unsigned 2 n) as [p|] eqn:P; [|discriminate].
    apply pack_unsigned_inv in P. destruct P as [_ ->].
    apply Ok_inj in H. subst b. right; left. split; [lia | reflexivity]. }
  apply Z.leb_gt in E2.
  destruct (n <=? 4294967295) eqn:E3.
  { apply Z.leb_le in E3.
    destruct (pack_unsigned 4 n) as [p|] eqn:P; [|discriminate].
    apply pack_unsigned_inv in P. destruct P as [_ ->].
    apply Ok_inj in H. subst b. right; right; left.
    split; [lia | reflexivity]. }
  apply Z.leb_gt in E3.
  destruct (pack_unsigned 8 n) as [p|] eqn:P; [|discriminate].
  apply pack_unsigned_inv in P. destruct P as [Hn ->].
  apply Ok_inj in H. subst b. right; right; right.
  split; [|reflexivity]. change (2 ^ (8 * Z.of_nat 8)) with (2 ^ 64) in Hn.
  lia.
Qed.

(** The first byte of an encoding tells its case: the value itself below
    0xFD, else the marker. *)
Lemma compact_size_first_byte (n : Z) (b : bytes) :
  compact_size n = Ok b ->
  exists x tl,
    b = x :: tl /\
    ((0 <= n < 0xfd /\ Z_of_byte x = n /\ tl = []) \/
     (0xfd <= n <= 0xffff /\ Z_of_byte x = 0xfd /\ tl = le_bytes 2 n) \/
     (0xffff < n <= 0xffffffff /\ Z_of_byte x = 0xfe /\ tl = le_bytes 4 n) \/
     (0xffffffff < n < 2 ^ 64 /\ Z_of_byte x = 0xff /\ tl = le_bytes 8 n)).
Proof.
  intro H. apply compact_size_inv in H.
  destruct H as [[Hn ->] | [[Hn ->] | [[Hn ->] | [Hn ->]]]].
  - exists (byte_of_Z (Z.land n 255)), []. split; [reflexivity|]. left.
    split; [exact Hn|]. split; [|reflexivity].
    rewrite low_byte by lia. apply Z_of_byte_of_Z. lia.
  - exists xfd, (le_bytes 2 n). split; [reflexivity|]. right; left.
    repeat split; lia.
  - exists xfe, (le_bytes 4 n). split; [reflexivity|]. right; right; left.
    repeat split; lia.
  - exists xff, (le_bytes 8 n). split; [reflexivity|]. right; right; right.
    repeat split; lia.
Qed.

Lemma le_bytes_prefix (k : nat) (n m : Z) (rest : bytes) :
  0 <= n < 2 ^ (8 * Z.of_nat k) -> 0 <= m < 2 ^ (8 * Z.of_nat k) ->
  le_bytes k m = le_bytes k n ++ rest -> n = m /\ rest = [].
Proof.
  intros Hn Hm E.
  assert (L : rest = []).
  { apply (f_equal (@length byte)) in E.
    rewrite length_app, !le_bytes_length in E.
    destruct rest; [reflexivity | simpl in E; lia]. }
  subst rest. rewrite app_nil_r in E.
  split; [|reflexivity]. symmetry. apply (le_bytes_inj k m n Hm Hn E).
Qed.

(** X3. No encoding of [compact_size] starts another one: when the
    encoding of [m] is the encoding of [n] followed by more bytes, there are
    no more bytes and [m] is [n].  So a size is read back from the front of
    a transaction in one way only, and different sizes have different
    encodings. *)
Theorem compact_size_prefix_free (n m : Z) (b1 b2 rest : bytes) :
  compact_size n = Ok b1 -> compact_size m = Ok b2 ->
  b2 = b1 ++ rest ->
  n = m /\ rest = [].
Proof.
  intros H1 H2 E.
  apply compact_size_first_byte in H1. apply compact_size_first_byte in H2.
  destruct H1 as (x1 & t1 & -> & C1). destruct H2 as (x2 & t2 & -> & C2).
  cbn [app] in E. apply (f_equal (fun l => (hd x00 l, tl l))) in E.
  cbn [hd tl] in E. injection E as Ex Et. subst x2.
  destruct C1 as [(Hn & V1 & ->) | [(Hn & V1 & ->) | [(Hn & V1 & ->)
                                                    | (Hn & V1 & ->)]]];
    destruct C2 as [(Hm & V2 & T2) | [(Hm & V2 & T2) | [(Hm & V2 & T2)
                                                      | (Hm & V2 & T2)]]];
    try lia; rewrite T2 in Et.
  - cbn [app] in Et. subst rest. split; [lia | reflexivity].
  - apply (le_bytes_prefix 2 n m rest); [simpl; lia | simpl; lia | exact Et].
  - apply (le_bytes_prefix 4 n m rest); [simpl; lia | simpl; lia | exact Et].
  - apply (le_bytes_prefix 8 n m rest); [simpl; lia | simpl; lia | exact Et].
Qed.

(** X3 at the size 300: its encoding starts no other one. *)
Lemma compact_size_prefix_free_witness :
  compact_size 300 = Ok [xfd; x2c; x01] /\ (300 = 300 /\ @nil byte = []).
Proof.
  exact (conj eq_refl
           (compact_size_prefix_free 300 300 [xfd; x2c; x01]
              [xfd; x2c; x01] [] eq_refl eq_refl eq_refl)).
Defined.

(* ------------------------------------------------------------------ *)
(** ** Hexadecimal text *)

Lemma hex_digit_cases (d : Z) (P : Z -> Prop) :
  0 <= d < 16 ->
  P 0 -> P 1 -> P 2 -> P 3 -> P 4 -> P 5 -> P 6 -> P 7 ->
  P 8 -> P 9 -> P 10 -> P 11 -> P 12 -> P 13 -> P 14 -> P 15 -> P d.
Proof.
  intros H P0 P1 P2 P3 P4 P5 P6 P7 P8 P9 P10 P11 P12 P13 P14 P15.
  assert (E : d = 0 \/ d = 1 \/ d = 2 \/ d = 3 \/ d = 4 \/ d = 5 \/ d = 6 \/
              d = 7 \/ d = 8 \/ d = 9 \/ d = 10 \/ d = 11 \/ d = 12 \/
              d = 13 \/ d = 14 \/ d = 15) by lia.
  repeat (destruct E as [-> | E]; [assumption|]). subst d. assumption.
Qed.

Lemma digit_value_hex_digit (d : Z) :
  0 <= d < 16 -> digit_value (hex_digit d) = Some d.
Proof.
  intro H.
  apply (hex_digit_cases d (fun d => digit_value (hex_digit d) = Some d) H);
    reflexivity.
Qed.

Lemma is_space_hex_digit (d : Z) :
  0 <= d < 16 -> is_space (hex_digit d) = false.
Proof.
  intro H.
  apply (hex_digit_cases d (fun d => is_space (hex_digit d) = false) H);
    reflexivity.
Qed.

Lemma byte_of_Z_of_byte (x : byte) : byte_of_Z (Z_of_byte x) = x.
Proof.
  unfold byte_of_Z. rewrite low_byte by apply Z_of_byte_range.
  unfold Z_of_byte. rewrite N2Z.id, Byte.of_to_N. reflexivity.
Qed.

Lemma nibbles (z : Z) :
  0 <= z < 256 -> 0 <= z / 16 < 16 /\ 0 <= z mod 16 < 16 /\
                  z / 16 * 16 + z mod 16 = z.
Proof.
  intro H. pose proof (Z.mod_pos_bound z 16 ltac:(lia)).
  pose proof (Z.div_mod z 16 ltac:(lia)).
  assert (0 <= z / 16) by (apply Z.div_pos; lia).
  assert (z / 16 < 16) by (apply Z.div_lt_upper_bound; lia).
  lia.
Qed.

Lemma fromhex_aux_hex (b : bytes) :
  forall fuel, (length b < fuel)%nat -> fromhex_aux fuel (hex b) = Ok b.
Proof.
  induction b as [|x b IH]; intros fuel Hf.
  - destruct fuel; [lia | reflexivity].
  - destruct fuel as [|fuel]; [lia|].
    destruct (nibbles (Z_of_byte x) (Z_of_byte_range x)) as (Hhi & Hlo & E).
    cbn [hex fromhex_aux]. unfold skip_spaces. cbn [skip].
    rewrite (is_space_hex_digit _ Hhi).
    rewrite (digit_value_hex_digit _ Hhi), (digit_value_hex_digit _ Hlo).
    rewrite IH by (simpl in Hf; lia). cbn [bind].
    rewrite E, byte_of_Z_of_byte. reflexivity.
Qed.

Lemma hex_length (b : bytes) :
  String.length (hex b) = (2 * length b)%nat.
Proof.
  induction b as [|x b IH]; [reflexivity|].
  cbn [hex String.length length]. rewrite IH. lia.
Qed.

(** X4. The text that [bytes.hex] writes is read back by
    [bytes.fromhex] as the same bytes: what the worker would submit for a
    header decodes to that header. *)
Theorem fromhex_hex (b : bytes) : fromhex (hex b) = Ok b.
Proof.
  unfold fromhex. apply fromhex_aux_hex. rewrite hex_length. lia.
Qed.

Lemma hex_snoc (b : bytes) (x : byte) :
  hex (b ++ [x]) =
  String.append (hex b)
    (String (hex_digit (Z_of_byte x / 16))
       (String (hex_digit (Z_of_byte x mod 16)) EmptyString)).
Proof. rewrite hex_app. reflexivity. Qed.

Lemma append_assoc (a b c : string) :
  String.append (String.append a b) c = String.append a (String.append b c).
Proof.
  induction a as [|x a IH]; [reflexivity|].
  cbn [String.append]. now rewrite IH.
Qed.

(** [2 k] digits of [n] are the [k] low-order bytes of [n] written most
    significant first. *)
Lemma hex_digits_bytes (k : nat) :
  forall n, hex_digits (k + k) n = hex (rev (le_bytes k n)).
Proof.
  induction k as [|k IH]; intro n; [reflexivity|].
  replace (S k + S k)%nat with (S (S (k + k))) by lia.
  cbn [hex_digits le_bytes rev]. rewrite hex_snoc, Z_of_byte_low_bits.
  change 255 with (Z.ones 8). rewrite Z.land_ones by lia.
  rewrite Z.mod_mod by lia. rewrite Z.shiftr_div_pow2 by lia.
  change (2 ^ 8) with (16 * 16).
  rewrite <- IH. rewrite Z.div_div by lia.
  rewrite append_assoc. cbn [String.append].
  change 256 with (16 * 16). rewrite (Z.rem_mul_r n 16 16) by lia.
  pose proof (Z.mod_pos_bound n 16 ltac:(lia)) as H0.
  pose proof (Z.mod_pos_bound (n / 16) 16 ltac:(lia)) as H1.
  set (r := n mod 16) in *. set (q := (n / 16) mod 16) in *.
  assert (E1 : (r + 16 * q) / 16 = q).
  { replace (r + 16 * q) with (q * 16 + r) by lia.
    rewrite Z.div_add_l by lia. rewrite (Z.div_small r) by exact H0. lia. }
  assert (E2 : (r + 16 * q) mod 16 = r).
  { replace (r + 16 * q) with (r + q * 16) by lia.
    rewrite Z.mod_add by lia. apply Z.mod_small. exact H0. }
  rewrite E1, E2. reflexivity.
Qed.

Lemma hex_width_32_bits (n : Z) :
  0 <= n < 2 ^ 32 -> Nat.max 8 (hex_width n) = 8%nat.
Proof.
  intro H. unfold hex_width.
  assert (L : Z.log2 n < 32).
  { destruct (Z.eq_dec n 0) as [->|N]; [simpl; lia|].
    apply Z.log2_lt_pow2; lia. }
  pose proof (Z.log2_nonneg n).
  assert (Z.log2 n / 4 < 8) by (apply Z.div_lt_upper_bound; lia).
  assert (0 <= Z.log2 n / 4) by (apply Z.div_pos; lia).
  lia.
Qed.

Lemma format_08x_32_bits (n : Z) :
  0 <= n < 2 ^ 32 -> format_08x n = hex (rev (le_bytes 4 n)).
Proof.
  intro H. unfold format_08x.
  replace (n <? 0) with false by (symmetry; apply Z.ltb_ge; lia).
  rewrite (hex_width_32_bits n H). apply (hex_digits_bytes 4).
Qed.

(** X5. For every nonce that fits 32 bits, the text handed to
    [submitblock] is the text of the preimage, then of the nonce bytes in
    the reverse of the order in which they were hashed, then of the byte 01
    and of the coinbase; the nonce takes exactly 8 characters. *)
Theorem full_hex_nonce_reversed (pre cb : bytes) (nonce : Z) :
  0 <= nonce < 2 ^ 32 ->
  full_hex pre nonce cb =
  hex (pre ++ rev (le_bytes 4 nonce) ++ [x01] ++ cb) /\
  String.length (format_08x nonce) = 8%nat.
Proof.
  intro H. unfold full_hex. rewrite (format_08x_32_bits nonce H).
  split.
  - rewrite !hex_app. reflexivity.
  - rewrite hex_length, length_rev, le_bytes_length. reflexivity.
Qed.

(** X5 at the nonce 1000. *)
Lemma full_hex_nonce_reversed_witness :
  full_hex [] 1000 [] = hex ([] ++ rev (le_bytes 4 1000) ++ [x01] ++ []) /\
  String.length (format_08x 1000) = 8%nat.
Proof.
  exact (full_hex_nonce_reversed [] [] 1000 ltac:(lia)).
Defined.

(* ------------------------------------------------------------------ *)
(** ** The number compared with the target *)

Lemma int_from_bytes_big_bound (b : bytes) :
  0 <= int_from_bytes_big b < 2 ^ (8 * Z.of_nat (length b)).
Proof.
  induction b as [|x b IH] using rev_ind.
  - cbn. lia.
  - rewrite int_from_bytes_big_snoc, length_app. cbn [length].
    replace (8 * Z.of_nat (length b + 1)) with (8 * Z.of_nat (length b) + 8)
      by lia.
    rewrite Z.pow_add_r by lia. change (2 ^ 8) with 256.
    pose proof (Z_of_byte_range x). lia.
Qed.

Lemma digest_int_256_bits (pre : bytes) (n : Z) :
  0 <= digest_int pre n < 2 ^ 256.
Proof.
  unfold digest_int.
  pose proof (int_from_bytes_big_bound
                (rev (dsha256 (pre ++ le_bytes 4 n)))) as H.
  rewrite length_rev, dsha256_length in H. exact H.
Qed.

(** X6. The number a worker compares with the target is a 256-bit
    number, whatever the preimage and the nonce.  So under a target of 2^256
    or more the search of a range within 32 bits that is not empty stops at
    once: it returns true for the first nonce of the range. *)
Theorem search_permissive_target (pre cb : bytes)
    (target nonce_range_start nonce_range_end : Z) (s : proc) :
  2 ^ 256 <= target ->
  0 <= nonce_range_start -> nonce_range_start < nonce_range_end ->
  nonce_range_end <= 2 ^ 32 ->
  (forall n, 0 <= digest_int pre n < 2 ^ 256) /\
  search pre cb target nonce_range_start nonce_range_end s =
  (Ok true, after_find s pre cb nonce_range_start).
Proof.
  intros Ht H0 H1 H2. split; [apply digest_int_256_bits|].
  unfold search.
  destruct (Z.to_nat (nonce_range_end - nonce_range_start)) as [|n] eqn:E;
    [lia|].
  rewrite search_loop_step by lia.
  pose proof (digest_int_256_bits pre nonce_range_start) as B.
  replace (digest_int pre nonce_range_start <? target) with true
    by (symmetry; apply Z.ltb_lt; lia).
  reflexivity.
Qed.

(** X6 at the target 2^256 and the range [0, 1000). *)
Lemma search_permissive_target_witness :
  (forall n, 0 <= digest_int (repeat x00 76) n < 2 ^ 256) /\
  search (repeat x00 76) [] (2 ^ 256) 0 1000 scenario_proc =
  (Ok true, after_find scenario_proc (repeat x00 76) [] 0).
Proof.
  exact (search_permissive_target (repeat x00 76) [] (2 ^ 256) 0 1000
           scenario_proc ltac:(lia) ltac:(lia) ltac:(lia) ltac:(lia)).
Defined.

(* ------------------------------------------------------------------ *)
(** ** What a worker does, whatever it is given *)

Lemma quiet_refl (s : proc) : quiet s s.
Proof. exists []. split; [now rewrite app_nil_r | reflexivity]. Qed.

Lemma quiet_trans (s1 s2 s3 : proc) : quiet s1 s2 -> quiet s2 s3 -> quiet s1 s3.
Proof.
  intros (e1 & T1 & Q1) (e2 & T2 & Q2). exists (e1 ++ e2). split.
  - rewrite T2, T1, app_assoc. reflexivity.
  - rewrite existsb_app, Q1, Q2. reflexivity.
Qed.

Lemma quiet_with_trace (s : proc) (evs : list event) :
  existsb is_submit evs = false -> quiet s (with_trace s evs).
Proof. intro H. exists evs. split; [reflexivity | exact H]. Qed.

(** How a sequence of two computations ends. *)
Lemma mbind_inv {A B} (m : M A) (k : A -> M B) (s s' : proc)
    (r : result B) :
  mbind m k s = (r, s') ->
  (exists a s1, m s = (Ok a, s1) /\ k a s1 = (r, s')) \/
  (exists e, m s = (Raise e, s') /\ r = Raise e).
Proof.
  unfold mbind. destruct (m s) as [[a|e] s1]; intro H.
  - left. exists a, s1. split; [reflexivity | exact H].
  - right. exists e. injection H as <- <-. split; reflexivity.
Qed.

Lemma lift_inv {A} (x r : result A) (s s' : proc) :
  lift x s = (r, s') -> r = x /\ s' = s.
Proof. unfold lift. intro H. injection H as <- <-. split; reflexivity. Qed.

Lemma get_mining_script_quiet (env : answers) (s s' : proc)
    (r : result bytes) :
  get_mining_script env s = (r, s') -> quiet s s'.
Proof.
  unfold get_mining_script, mbind, get_global, emit, lift, set_global, ret.
  intro H.
  destruct (MINING_ADDR_HEX s) as [[|b rest]|];
    try (injection H as <- <-; apply quiet_refl);
    (destruct (ans_getnewaddress env) as [addr|];
     [ destruct (ans_validateaddress env) as [h|];
       [ destruct (fromhex h) as [script|e] | ] | ]);
    injection H as <- <-;
    first [ exists [Call_getnewaddress; Call_validateaddress addr];
            split; [cbn [trace with_trace]; rewrite <- app_assoc; reflexivity
                   | reflexivity]
          | exists [Call_getnewaddress];
            split; [reflexivity | reflexivity] ].
Qed.

Lemma create_coinbase_quiet (height : Z) (msg : bytes) (env : answers)
    (s s' : proc) (r : result bytes) :
  create_coinbase height msg env s = (r, s') -> quiet s s'.
Proof.
  unfold create_coinbase. intro H.
  apply mbind_inv in H.
  destruct H as [(hb & s1 & H1 & H) | (e & H1 & _)];
    apply lift_inv in H1; destruct H1 as [_ ->]; [|apply quiet_refl].
  apply mbind_inv in H.
  destruct H as [(sz & s1 & H1 & H) | (e & H1 & _)];
    apply lift_inv in H1; destruct H1 as [_ ->]; [|apply quiet_refl].
  apply mbind_inv in H.
  destruct H as [(sub & s1 & H1 & H) | (e & H1 & _)];
    apply lift_inv in H1; destruct H1 as [_ ->]; [|apply quiet_refl].
  apply mbind_inv in H.
  destruct H as [(spk & s1 & H1 & H) | (e & H1 & _)];
    apply get_mining_script_quiet in H1; [|exact H1].
  apply mbind_inv in H.
  destruct H as [(szp & s2 & H2 & H) | (e & H2 & _)];
    apply lift_inv in H2; destruct H2 as [_ ->]; [|exact H1].
  unfold ret in H. injection H as _ <-. exact H1.
Qed.

Lemma cache_get_quiet (env : answers) (s : proc) :
  exists served s1,
    cache_get env s = (Ok served, s1) /\
    served = get_served (block_template s) (now env)
                        (ans_getblocktemplate env) /\
    quiet s s1.
Proof.
  unfold cache_get, get_served.
  destruct (CachedBlockTemplate_get (block_template s) (now env)
              (ans_getblocktemplate env)) as [[served c'] evs] eqn:E.
  eexists. eexists. split; [reflexivity|]. split; [reflexivity|].
  exists evs. split; [reflexivity|].
  unfold CachedBlockTemplate_get in E.
  destruct (match template (block_template s) with
            | Some _ => _
            | None => true
            end);
    [destruct (ans_getblocktemplate env)|];
    injection E as _ _ <-; reflexivity.
Qed.

Section SearchOutcome.

Variables (pre cb : bytes) (target : Z).

Lemma search_loop_negative (nonce : Z) (n : nat) (s : proc) :
  nonce < 0 ->
  search_loop pre cb target nonce (S n) s = (Raise StructError, s).
Proof.
  intro H. cbn [search_loop]. unfold mbind, lift, pack_I.
  rewrite (pack_unsigned_negative 4 nonce H). reflexivity.
Qed.

(** The three ways the loop can end, on any range. *)
Lemma search_loop_outcome (n : nat) :
  forall (nonce : Z) (s s' : proc) (r : result bool),
    search_loop pre cb target nonce n s = (r, s') ->
    (exists k,
        r = Ok true /\ s' = after_find s pre cb k /\
        first_winning_nonce pre target nonce (nonce + Z.of_nat n) k /\
        0 <= k < 2 ^ 32) \/
    (r = Ok false /\ s' = s) \/
    (r = Raise StructError /\ s' = s).
Proof.
  unfold first_winning_nonce.
  induction n as [|n IH]; intros nonce s s' r H.
  - cbn [search_loop] in H. unfold ret in H. injection H as <- <-.
    right; left. split; reflexivity.
  - destruct (Z_lt_le_dec nonce 0) as [Hneg|Hpos].
    { rewrite search_loop_negative in H by exact Hneg.
      injection H as <- <-. right; right. split; reflexivity. }
    destruct (Z_lt_le_dec nonce (2 ^ 32)) as [Hfit|Hbig].
    2:{ rewrite search_loop_overflow in H by exact Hbig.
        injection H as <- <-. right; right. split; reflexivity. }
    rewrite search_loop_step in H by lia.
    destruct (digest_int pre nonce <? target) eqn:Hcmp.
    + injection H as <- <-. apply Z.ltb_lt in Hcmp. left. exists nonce.
      split; [reflexivity|]. split; [reflexivity|].
      split; [|lia]. split; [lia|]. split; [exact Hcmp|]. intros m Hm; lia.
    + apply Z.ltb_ge in Hcmp. apply IH in H.
      destruct H as [(k & -> & -> & (Hk & Hlt & Hmin) & Hk32) | H].
      * left. exists k. split; [reflexivity|]. split; [reflexivity|].
        split; [|exact Hk32]. split; [lia|]. split; [exact Hlt|].
        intros m Hm. destruct (Z.eq_dec m nonce) as [->|Hne];
          [exact Hcmp | apply Hmin; lia].
      * right. exact H.
Qed.

Lemma search_outcome (lo hi : Z) (s s' : proc) (r : result bool) :
  search pre cb target lo hi s = (r, s') ->
  (exists k,
      r = Ok true /\ s' = after_find s pre cb k /\
      first_winning_nonce pre target lo hi k /\ 0 <= k < 2 ^ 32) \/
  (r <> Ok true /\ s' = s).
Proof.
  unfold search. intro H. apply search_loop_outcome in H.
  destruct H as [(k & -> & -> & (Hk & Hlt & Hmin) & Hk32)
                | [[-> ->] | [-> ->]]].
  - left. exists k. split; [reflexivity|]. split; [reflexivity|].
    split; [|exact Hk32].
    assert (lo < hi) by lia.
    rewrite Z2Nat.id in Hk by lia.
    split; [lia|]. split; [exact Hlt | exact Hmin].
  - right. split; [discriminate | reflexivity].
  - right. split; [discriminate | reflexivity].
Qed.

End SearchOutcome.

(** Every way [btc_worker] can end: with a find, through all its
    stages, or without one and without a submission. *)
Lemma btc_worker_outcome (a b : Z) (env : answers) (s s' : proc)
    (r : result (option bool)) :
  btc_worker a b env s = (r, s') ->
  (exists tmpl s1 cb s2 pre tgt n,
      cache_get env s = (Ok (Some tmpl), s1) /\
      create_coinbase (height tmpl) BTC_GROVER env s1 = (Ok cb, s2) /\
      header_pre tmpl cb = Ok pre /\
      int16 (target tmpl) = Ok tgt /\
      first_winning_nonce pre tgt a b n /\ 0 <= n < 2 ^ 32 /\
      r = Ok (Some true) /\ s' = after_find s2 pre cb n /\ quiet s s2) \/
  (r <> Ok (Some true) /\ quiet s s').
Proof.
  intro H. unfold btc_worker in H. unfold mbind at 1 in H.
  destruct (cache_get_quiet env s) as (served & s1 & Hc & _ & Q1).
  rewrite Hc in H. destruct served as [tmpl|].
  2:{ unfold ret in H. injection H as <- <-. right.
      split; [discriminate | exact Q1]. }
  unfold mbind at 1 in H.
  destruct (create_coinbase (height tmpl) BTC_GROVER env s1)
    as [[cb|e] s2] eqn:Hcb;
    pose proof (quiet_trans _ _ _ Q1 (create_coinbase_quiet _ _ _ _ _ _ Hcb))
      as Q2.
  2:{ injection H as <- <-. right. split; [discriminate | exact Q2]. }
  unfold mbind at 1, lift at 1 in H.
  destruct (header_pre tmpl cb) as [pre|e] eqn:Hpre.
  2:{ injection H as <- <-. right. split; [discriminate | exact Q2]. }
  unfold mbind at 1, lift at 1 in H.
  destruct (int16 (target tmpl)) as [tgt|e] eqn:Htgt.
  2:{ injection H as <- <-. right. split; [discriminate | exact Q2]. }
  unfold mbind at 1 in H.
  destruct (search pre cb tgt a b s2) as [rs s3] eqn:Hs.
  apply search_outcome in Hs.
  destruct Hs as [(n & -> & -> & Hfirst & Hn) | [Hrs ->]].
  - unfold ret in H. injection H as <- <-. left.
    exists tmpl, s1, cb, s2, pre, tgt, n.
    repeat (split; [assumption || reflexivity|]). exact Q2.
  - right. destruct rs as [[|]|e].
    + contradiction Hrs. reflexivity.
    + unfold ret in H. injection H as <- <-.
      split; [discriminate | exact Q2].
    + injection H as <- <-. split; [discriminate | exact Q2].
Qed.

(** X7. A worker that returns true went through all its stages: the
    cache served a template, the coinbase and the header were built from
    it, its target was read, and the nonce printed and submitted is the
    smallest one of the range whose number is strictly below that target;
    it fits 32 bits, and nothing else was submitted. *)
Theorem btc_worker_find_sound (nonce_range_start nonce_range_end : Z)
    (env : answers) (s s' : proc) :
  btc_worker nonce_range_start nonce_range_end env s =
  (Ok (Some true), s') ->
  exists tmpl s1 cb s2 pre tgt n,
    get_served (block_template s) (now env) (ans_getblocktemplate env) =
    Some tmpl /\
    create_coinbase (height tmpl) BTC_GROVER env s1 = (Ok cb, s2) /\
    header_pre tmpl cb = Ok pre /\
    int16 (target tmpl) = Ok tgt /\
    first_winning_nonce pre tgt nonce_range_start nonce_range_end n /\
    0 <= n < 2 ^ 32 /\
    quiet s s2 /\
    s' = after_find s2 pre cb n.
Proof.
  intro H. apply btc_worker_outcome in H.
  destruct H as [(tmpl & s1 & cb & s2 & pre & tgt & n & Hc & Hcb & Hpre &
                  Htgt & Hfirst & Hn & _ & Hs' & Q) | [Hr _]];
    [|contradiction Hr; reflexivity].
  exists tmpl, s1, cb, s2, pre, tgt, n.
  split.
  { destruct (cache_get_quiet env s) as (served & s1' & Hc' & Hserved & _).
    rewrite Hc in Hc'. injection Hc' as <- _. symmetry. exact Hserved. }
  repeat (split; [assumption|]). exact Hs'.
Qed.

(** X8. A worker that does not return true, whether it returns false or
    [None] or raises, has not called [submitblock]: its trace only grew,
    by calls that are no submission. *)
Theorem btc_worker_quiet_without_find
    (nonce_range_start nonce_range_end : Z) (env : answers) (s s' : proc)
    (r : result (option bool)) :
  btc_worker nonce_range_start nonce_range_end env s = (r, s') ->
  r <> Ok (Some true) ->
  quiet s s'.
Proof.
  intros H Hr. apply btc_worker_outcome in H.
  destruct H as [(tmpl & s1 & cb & s2 & pre & tgt & n & _ & _ & _ & _ & _ &
                  _ & -> & _) | [_ Q]];
    [contradiction Hr; reflexivity | exact Q].
Qed.

(** X7 on the scenario: the worker given [1000, 2000) under the largest
    target. *)
Lemma btc_worker_find_sound_witness :
  exists tmpl s1 cb s2 pre tgt n,
    get_served (block_template scenario_proc)
      (now (scenario_answers permissive_target 1690000000))
      (ans_getblocktemplate (scenario_answers permissive_target 1690000000))
    = Some tmpl /\
    create_coinbase (height tmpl) BTC_GROVER
      (scenario_answers permissive_target 1690000000) s1 = (Ok cb, s2) /\
    header_pre tmpl cb = Ok pre /\
    int16 (target tmpl) = Ok tgt /\
    first_winning_nonce pre tgt 1000 2000 n /\
    0 <= n < 2 ^ 32 /\
    quiet scenario_proc s2 /\
    after_find (scenario_fetched permissive_target 1690000000)
               (scenario_pre scenario_cb) scenario_cb 1000 =
    after_find s2 pre cb n.
Proof.
  exact (btc_worker_find_sound 1000 2000
           (scenario_answers permissive_target 1690000000) scenario_proc _
           scenario_worker_finds_1000).
Defined.

(** Without a template held and without one from the node, a worker
    returns [None] after its one call. *)
Lemma btc_worker_no_template (a b : Z) (env : answers) (s : proc) :
  template (block_template s) = None ->
  ans_getblocktemplate env = None ->
  btc_worker a b env s = (Ok None, with_trace s [Call_getblocktemplate]).
Proof.
  intros Ht Hn. unfold btc_worker, mbind, cache_get.
  destruct s as [g [tm lu] tr]. cbn [block_template template] in *.
  subst tm. rewrite get_when_empty, Hn. reflexivity.
Qed.

(** X8 on a worker that gets no template. *)
Lemma btc_worker_quiet_without_find_witness :
  quiet fresh_proc (with_trace fresh_proc [Call_getblocktemplate]).
Proof.
  exact (btc_worker_quiet_without_find 0 1000 (failing_answers [])
           fresh_proc _ _
           (btc_worker_no_template 0 1000 (failing_answers []) fresh_proc
              eq_refl eq_refl)
           ltac:(discriminate)).
Defined.

(* ------------------------------------------------------------------ *)
(** ** Turns of the coordinator *)

Lemma with_trace_nil (s : proc) : with_trace s [] = s.
Proof. destruct s; unfold with_trace; simpl. now rewrite app_nil_r. Qed.

Lemma collect_all_none (n : nat) : collect (repeat (Ok None) n) = Ok false.
Proof. induction n as [|n IH]; [reflexivity | exact IH]. Qed.

Lemma dispatch_no_template (n : nat) :
  forall i envs st,
    template (block_template (process st)) = None ->
    (forall j, ans_getblocktemplate (envs j) = None) ->
    dispatch n i envs st =
    (repeat (Ok None) n,
     {| nonce_counter := nonce_counter st + NONCE_BLOCK_SIZE * Z.of_nat n;
        process := with_trace (process st)
                     (repeat Call_getblocktemplate n) |}).
Proof.
  induction n as [|n IH]; intros i envs st Ht Hn.
  - cbn [dispatch repeat]. rewrite with_trace_nil. destruct st as [c p].
    cbn [nonce_counter process]. f_equal. f_equal. lia.
  - cbn [dispatch]. unfold nonce_allocator.
    rewrite (btc_worker_no_template _ _ (envs i) (process st) Ht (Hn i)).
    rewrite IH by (cbn [process with_trace block_template]; assumption).
    cbn [nonce_counter process repeat]. rewrite with_trace_app.
    f_equal. f_equal. lia.
Qed.

Lemma main_wave_no_template (CORES : nat) (envs : nat -> answers)
    (st : coordinator) :
  template (block_template (process st)) = None ->
  (forall j, ans_getblocktemplate (envs j) = None) ->
  main_wave CORES envs st =
  Ok {| nonce_counter := nonce_counter st + 1000 * Z.of_nat CORES;
        process := with_trace (process st)
                     (repeat Call_getblocktemplate CORES) |}.
Proof.
  intros Ht Hn. unfold main_wave.
  rewrite (dispatch_no_template CORES 0 envs st Ht Hn).
  rewrite collect_all_none. reflexivity.
Qed.

(** X9. While no template is held and the node hands none out, the loop
    finds nothing and submits nothing, yet it uses up the nonces: in every
    turn every worker makes its one call of [getblocktemplate] and returns
    [None], and the counter is left advanced by 1000 for each worker of
    each turn.  When the node comes back, the search starts from there. *)
Theorem run_without_template (CORES : nat) (world : nat -> nat -> answers)
    (k w : nat) (st : coordinator) :
  template (block_template (process st)) = None ->
  (forall v i, ans_getblocktemplate (world v i) = None) ->
  main_loop CORES world k w st =
  Ok {| nonce_counter :=
          nonce_counter st + 1000 * Z.of_nat CORES * Z.of_nat k;
        process := with_trace (process st)
                     (repeat Call_getblocktemplate (CORES * k)) |}.
Proof.
  intros Ht Hn. revert w st Ht.
  induction k as [|k IH]; intros w st Ht.
  - cbn [main_loop]. rewrite Nat.mul_0_r. cbn [repeat].
    rewrite with_trace_nil. destruct st as [c p].
    cbn [nonce_counter process]. f_equal. f_equal. lia.
  - cbn [main_loop].
    rewrite (main_wave_no_template CORES (world w) st Ht (Hn w)).
    cbn [bind]. rewrite IH by exact Ht.
    cbn [nonce_counter process]. rewrite with_trace_app, <- repeat_app.
    f_equal. f_equal; [lia | f_equal; f_equal; lia].
Qed.

(** X9 on three turns of 4 workers and a node that is down, from the
    start of [main]. *)
Lemma run_without_template_witness :
  main_loop 4 (fun _ _ => failing_answers []) 3 0
    {| nonce_counter := 0; process := fresh_proc |} =
  Ok {| nonce_counter := 0 + 1000 * Z.of_nat 4 * Z.of_nat 3;
        process := with_trace fresh_proc
                     (repeat Call_getblocktemplate (4 * 3)) |}.
Proof.
  exact (run_without_template 4 (fun _ _ => failing_answers []) 3 0
           {| nonce_counter := 0; process := fresh_proc |}
           eq_refl (fun _ _ => eq_refl)).
Defined.

(** The exception that [f.result()] raises first, if any comes before a
    true result. *)
Lemma collect_raises (outs : list (result (option bool))) :
  forall i e,
    nth_error outs i = Some (Raise e) ->
    (forall j, (j < i)%nat -> nth_error outs j <> Some (Ok (Some true))) ->
    exists e', collect outs = Raise e'.
Proof.
  induction outs as [|o outs IH]; intros i e Hi Hbefore.
  - destruct i; discriminate.
  - destruct i as [|i].
    + cbn in Hi. injection Hi as ->. exists e. reflexivity.
    + destruct o as [[[|]|]|e0].
      * exfalso. apply (Hbefore 0%nat); [lia | reflexivity].
      * cbn [collect]. apply (IH i e Hi). intros j Hj.
        apply (Hbefore (S j)). lia.
      * cbn [collect]. apply (IH i e Hi). intros j Hj.
        apply (Hbefore (S j)). lia.
      * exists e0. reflexivity.
Qed.

(** Which exception [f.result()] raises: the first one in submission
    order, when no earlier result is true. *)
Lemma collect_raise_iff (outs : list (result (option bool))) (e : exn) :
  collect outs = Raise e <->
  exists i,
    nth_error outs i = Some (Raise e) /\
    forall j, (j < i)%nat ->
      nth_error outs j = Some (Ok None) \/
      nth_error outs j = Some (Ok (Some false)).
Proof.
  induction outs as [|o outs IH].
  - split; [discriminate|]. intros (i & Hi & _). destruct i; discriminate.
  - split.
    + intro H. destruct o as [[[|]|]|e0].
      * discriminate.
      * cbn [collect] in H. apply IH in H. destruct H as (i & Hi & Hb).
        exists (S i). split; [exact Hi|]. intros [|j] Hj.
        -- right. reflexivity.
        -- apply Hb. lia.
      * cbn [collect] in H. apply IH in H. destruct H as (i & Hi & Hb).
        exists (S i). split; [exact Hi|]. intros [|j] Hj.
        -- left. reflexivity.
        -- apply Hb. lia.
      * cbn [collect] in H. injection H as ->. exists 0%nat.
        split; [reflexivity|]. intros j Hj. lia.
    + intros (i & Hi & Hb). destruct i as [|i].
      * cbn [nth_error] in Hi. injection Hi as ->. reflexivity.
      * assert (Hrest : collect outs = Raise e).
        { apply IH. exists i. split; [exact Hi|]. intros j Hj.
          apply (Hb (S j)). lia. }
        destruct (Hb 0%nat ltac:(lia)) as [H0|H0];
          cbn [nth_error] in H0; injection H0 as ->; exact Hrest.
Qed.

(** X10. A turn ends [main] with the exception [e] exactly when some
    worker of the turn raised [e] and every worker submitted before it
    returned [None] or false: [f.result()] raises the first exception in
    submission order, and a find by an earlier worker hides it. *)
Theorem main_wave_raises_iff (CORES : nat) (envs : nat -> answers)
    (st : coordinator) (e : exn) :
  main_wave CORES envs st = Raise e <->
  exists i,
    nth_error (fst (dispatch CORES 0 envs st)) i = Some (Raise e) /\
    forall j, (j < i)%nat ->
      nth_error (fst (dispatch CORES 0 envs st)) j = Some (Ok None) \/
      nth_error (fst (dispatch CORES 0 envs st)) j = Some (Ok (Some false)).
Proof.
  unfold main_wave.
  destruct (dispatch CORES 0 envs st) as [outs st']. cbn [fst].
  split.
  - intro H. apply collect_raise_iff.
    destruct (collect outs) as [found|e0]; cbn [bind] in H;
      [discriminate | injection H as ->; reflexivity].
  - intro H. apply collect_raise_iff in H. rewrite H. reflexivity.
Qed.

(* ------------------------------------------------------------------ *)
(** ** The counter beyond 32 bits *)

(** A worker given a range that starts at 2^32 or above finds nothing and
    submits nothing. *)
Lemma btc_worker_beyond_32_bits (a b : Z) (env : answers) (s s' : proc)
    (r : result (option bool)) :
  2 ^ 32 <= a ->
  btc_worker a b env s = (r, s') ->
  r <> Ok (Some true) /\ quiet s s'.
Proof.
  intros Ha H. apply btc_worker_outcome in H.
  destruct H as [(tmpl & s1 & cb & s2 & pre & tgt & n & _ & _ & _ & _ &
                  ((Hn & _) & _) & Hn32 & _) | H]; [lia | exact H].
Qed.

Lemma dispatch_beyond_32_bits (n : nat) :
  forall i envs st outs st',
    2 ^ 32 <= nonce_counter st ->
    dispatch n i envs st = (outs, st') ->
    collect outs <> Ok true /\ quiet (process st) (process st').
Proof.
  induction n as [|n IH]; intros i envs st outs st' Hc H.
  - cbn [dispatch] in H. injection H as <- <-.
    split; [discriminate | apply quiet_refl].
  - cbn [dispatch] in H. unfold nonce_allocator in H.
    destruct (btc_worker (nonce_counter st)
                (nonce_counter st + NONCE_BLOCK_SIZE) (envs i) (process st))
      as [out p'] eqn:Hw.
    apply (btc_worker_beyond_32_bits _ _ _ _ _ _ Hc) in Hw.
    destruct Hw as [Hout Q1].
    destruct (dispatch n (S i) envs
                {| nonce_counter := nonce_counter st + NONCE_BLOCK_SIZE;
                   process := p' |}) as [outs' st''] eqn:Hd.
    apply IH in Hd; [|cbn [nonce_counter]; unfold NONCE_BLOCK_SIZE; lia].
    destruct Hd as [Hcol Q2]. cbn [process] in Q2.
    injection H as <- <-. split; [|exact (quiet_trans _ _ _ Q1 Q2)].
    destruct out as [[[|]|]|e]; cbn [collect];
      [contradiction Hout; reflexivity | exact Hcol | exact Hcol
      | discriminate].
Qed.

Lemma main_wave_beyond_32_bits (CORES : nat) (envs : nat -> answers)
    (st st' : coordinator) :
  2 ^ 32 <= nonce_counter st ->
  main_wave CORES envs st = Ok st' ->
  nonce_counter st' = nonce_counter st + 1000 * Z.of_nat CORES /\
  quiet (process st) (process st').
Proof.
  intros Hc H. unfold main_wave in H.
  pose proof (dispatch_counter CORES 0 envs st) as Hcount.
  destruct (dispatch CORES 0 envs st) as [outs st1] eqn:Hd.
  apply (dispatch_beyond_32_bits _ _ _ _ _ _ Hc) in Hd.
  destruct Hd as [Hcol Q]. cbn [snd] in Hcount.
  destruct (collect outs) as [[|]|e]; cbn [bind] in H.
  - contradiction Hcol. reflexivity.
  - injection H as <-. split; [exact Hcount | exact Q].
  - discriminate.
Qed.

(** X11. Once the counter has reached 2^32 the miner never finds a block
    again: as long as the loop goes on, no turn submits anything and none
    resets the counter, which grows by 1000 per worker and turn. *)
Theorem no_find_beyond_32_bits (CORES : nat) (world : nat -> nat -> answers)
    (k w : nat) (st st' : coordinator) :
  2 ^ 32 <= nonce_counter st ->
  main_loop CORES world k w st = Ok st' ->
  nonce_counter st' =
  nonce_counter st + 1000 * Z.of_nat CORES * Z.of_nat k /\
  quiet (process st) (process st').
Proof.
  revert w st. induction k as [|k IH]; intros w st Hc H.
  - cbn [main_loop] in H. injection H as <-.
    split; [lia | apply quiet_refl].
  - cbn [main_loop] in H.
    destruct (main_wave CORES (world w) st) as [st1|e] eqn:Hw;
      cbn [bind] in H; [|discriminate].
    apply (main_wave_beyond_32_bits _ _ _ _ Hc) in Hw.
    destruct Hw as [Hc1 Q1].
    apply IH in H; [|lia]. destruct H as [Hc2 Q2].
    split; [lia | exact (quiet_trans _ _ _ Q1 Q2)].
Qed.

(** A worker given a non-empty range at or above 2^32, and a template it
    can assemble a header from, raises [struct.error] at its first
    nonce. *)
Lemma btc_worker_overflow (a b : Z) (env : answers) (s s1 s2 : proc)
    (tmpl : Template) (cb pre : bytes) (tgt : Z) :
  2 ^ 32 <= a -> a < b ->
  cache_get env s = (Ok (Some tmpl), s1) ->
  create_coinbase (height tmpl) BTC_GROVER env s1 = (Ok cb, s2) ->
  header_pre tmpl cb = Ok pre ->
  int16 (target tmpl) = Ok tgt ->
  btc_worker a b env s = (Raise StructError, s2).
Proof.
  intros Ha Hab Hget Hcb Hpre Htgt. unfold btc_worker.
  unfold mbind at 1. rewrite Hget.
  unfold mbind at 1. rewrite Hcb.
  unfold mbind at 1, lift at 1. rewrite Hpre.
  unfold mbind at 1, lift at 1. rewrite Htgt.
  unfold mbind at 1, search.
  destruct (Z.to_nat (b - a)) as [|m] eqn:Hm; [lia|].
  rewrite search_loop_overflow by exact Ha. reflexivity.
Qed.

(** X12. With the counter at 2^32 or above, the first turn whose first
    worker is served a usable template (coinbase, header and target all
    built) ends [main]: packing the first nonce of its range raises
    [struct.error], which [f.result()] raises again. *)
Theorem wave_beyond_32_bits_raises (CORES : nat) (envs : nat -> answers)
    (st : coordinator) (tmpl : Template) (s1 s2 : proc) (cb pre : bytes)
    (tgt : Z) :
  2 ^ 32 <= nonce_counter st ->
  cache_get (envs 0%nat) (process st) = (Ok (Some tmpl), s1) ->
  create_coinbase (height tmpl) BTC_GROVER (envs 0%nat) s1 = (Ok cb, s2) ->
  header_pre tmpl cb = Ok pre ->
  int16 (target tmpl) = Ok tgt ->
  main_wave (S CORES) envs st = Raise StructError.
Proof.
  intros Hc Hget Hcb Hpre Htgt. unfold main_wave. cbn [dispatch].
  unfold nonce_allocator.
  assert (Hlt : nonce_counter st < nonce_counter st + NONCE_BLOCK_SIZE)
    by (unfold NONCE_BLOCK_SIZE; lia).
  rewrite (btc_worker_overflow _ _ _ _ _ _ _ _ _ _ Hc Hlt Hget Hcb Hpre
             Htgt).
  destruct (dispatch CORES 1 envs _) as [outs st']. reflexivity.
Qed.

(** X11 on two turns of 2 workers with the counter at 2^32 and a node
    that is down. *)
Lemma no_find_beyond_32_bits_witness :
  nonce_counter
    {| nonce_counter := 2 ^ 32 + 4000;
       process := with_trace fresh_proc (repeat Call_getblocktemplate 4) |} =
  nonce_counter {| nonce_counter := 2 ^ 32; process := fresh_proc |} +
  1000 * Z.of_nat 2 * Z.of_nat 2 /\
  quiet (process {| nonce_counter := 2 ^ 32; process := fresh_proc |})
        (process
           {| nonce_counter := 2 ^ 32 + 4000;
              process :=
                with_trace fresh_proc (repeat Call_getblocktemplate 4) |}).
Proof.
  exact (no_find_beyond_32_bits 2 (fun _ _ => failing_answers []) 2 0
           {| nonce_counter := 2 ^ 32; process := fresh_proc |}
           {| nonce_counter := 2 ^ 32 + 4000;
              process :=
                with_trace fresh_proc (repeat Call_getblocktemplate 4) |}
           ltac:(cbn [nonce_counter]; lia) eq_refl).
Defined.

(** X12 on the scenario with the counter at 2^32. *)
Lemma wave_beyond_32_bits_raises_witness :
  main_wave 1 find_world
    {| nonce_counter := 2 ^ 32; process := scenario_proc |} =
  Raise StructError.
Proof.
  exact (wave_beyond_32_bits_raises 0 find_world
           {| nonce_counter := 2 ^ 32; process := scenario_proc |}
           (scenario_template permissive_target)
           (scenario_fetched permissive_target 1690000000)
           (scenario_fetched permissive_target 1690000000)
           scenario_cb (scenario_pre scenario_cb) (2 ^ 256 - 1)
           ltac:(cbn [nonce_counter]; lia)
           eq_refl
           (scenario_coinbase permissive_target 1690000000
              (scenario_fetched permissive_target 1690000000) eq_refl)
           (scenario_header permissive_target scenario_cb)
           eq_refl).
Defined.

(* ------------------------------------------------------------------ *)
(** ** The coinbase builder on any input *)

(** X13. A height that does not fit 32 unsigned bits makes
    [create_coinbase] raise [struct.error] at once: the node is not asked
    for an address and the process is left as it was. *)
Theorem create_coinbase_bad_height (height : Z) (msg : bytes)
    (env : answers) (s : proc) :
  height < 0 \/ 2 ^ 32 <= height ->
  create_coinbase height msg env s = (Raise StructError, s).
Proof.
  intro H. unfold create_coinbase, mbind at 1, lift at 1, pack_I.
  destruct H as [H|H].
  - rewrite (pack_unsigned_negative 4 height H). reflexivity.
  - rewrite (pack_unsigned_too_big 4 height); [reflexivity|].
    change (2 ^ (8 * Z.of_nat 4)) with (2 ^ 32). exact H.
Qed.

(** X13 at the height -1. *)
Lemma create_coinbase_bad_height_witness :
  create_coinbase (-1) BTC_GROVER resolving_answers fresh_proc =
  (Raise StructError, fresh_proc).
Proof.
  exact (create_coinbase_bad_height (-1) BTC_GROVER resolving_answers
           fresh_proc (or_introl (ltac:(lia) : -1 < 0))).
Defined.

Lemma pack_I_inv (n : Z) (b : bytes) :
  pack_I n = Ok b -> 0 <= n < 2 ^ 32 /\ b = le_bytes 4 n.
Proof. intro H. apply pack_unsigned_inv in H. exact H. Qed.



(* ------------------------------------------------------------------ *)
(** ** The payout script on answers that are no script *)

(** X15. When the node answers [validateaddress] with a [scriptPubKey]
    that [bytes.fromhex] rejects, [get_mining_script] raises after its two
    calls and stores nothing; at the start of [main] this ends the program
    before the loop is entered. *)
Theorem get_mining_script_bad_hex (env : answers) (s : proc)
    (addr h : string) (e : exn) :
  MINING_ADDR_HEX s = None \/ MINING_ADDR_HEX s = Some [] ->
  ans_getnewaddress env = Some addr ->
  ans_validateaddress env = Some h ->
  fromhex h = Raise e ->
  get_mining_script env s =
  (Raise e, with_trace s [Call_getnewaddress; Call_validateaddress addr]) /\
  main_init env = Raise e.
Proof.
  intros Hg Ha Hv Hh. split.
  - unfold get_mining_script, mbind, get_global, emit, lift.
    destruct Hg as [Hg|Hg]; rewrite Hg, Ha, Hv, Hh, with_trace_app;
      reflexivity.
  - unfold main_init, get_mining_script, mbind, get_global, emit, lift.
    cbn [MINING_ADDR_HEX]. rewrite Ha, Hv, Hh. reflexivity.
Qed.

(** X16. When the node answers with an empty [scriptPubKey] (a text of
    white space or none), the empty script is returned and stored, but it
    does not count as resolved: the next call asks the node again. *)
Theorem get_mining_script_empty_script (env : answers) (s : proc)
    (addr h : string) :
  MINING_ADDR_HEX s = None \/ MINING_ADDR_HEX s = Some [] ->
  ans_getnewaddress env = Some addr ->
  ans_validateaddress env = Some h ->
  fromhex h = Ok [] ->
  exists s',
    get_mining_script env s = (Ok [], s') /\
    MINING_ADDR_HEX s' = Some [] /\
    trace s' = trace s ++ [Call_getnewaddress; Call_validateaddress addr] /\
    forall env', exists r s'' calls,
      get_mining_script env' s' = (r, s'') /\
      trace s'' = trace s' ++ Call_getnewaddress :: calls.
Proof.
  intros Hg Ha Hv Hh. eexists. split; [|split; [|split]].
  - unfold get_mining_script, mbind, get_global, emit, lift, set_global,
      ret.
    destruct Hg as [Hg|Hg]; rewrite Hg, Ha, Hv, Hh; reflexivity.
  - reflexivity.
  - cbn [trace with_trace]. rewrite <- app_assoc. reflexivity.
  - intro env'.
    unfold get_mining_script, mbind, get_global, emit, lift, set_global,
      ret.
    cbn [MINING_ADDR_HEX with_trace trace block_template].
    destruct (ans_getnewaddress env') as [addr'|].
    + destruct (ans_validateaddress env') as [h'|].
      * destruct (fromhex h') as [script|e'];
          eexists; eexists; exists [Call_validateaddress addr'];
            (split; [reflexivity|]); cbn [trace with_trace];
            repeat rewrite <- app_assoc; reflexivity.
      * eexists; eexists; exists [Call_validateaddress addr'];
          (split; [reflexivity|]); cbn [trace with_trace];
          repeat rewrite <- app_assoc; reflexivity.
    + eexists; eexists; exists []; (split; [reflexivity|]);
        cbn [trace with_trace]; repeat rewrite <- app_assoc; reflexivity.
Qed.

(** X15 on a [scriptPubKey] that is no hexadecimal text. *)
Lemma get_mining_script_bad_hex_witness :
  get_mining_script (script_answers "zz") fresh_proc =
  (Raise ValueError,
   with_trace fresh_proc
     [Call_getnewaddress; Call_validateaddress "bcrt1qexample"]) /\
  main_init (script_answers "zz") = Raise ValueError.
Proof.
  exact (get_mining_script_bad_hex (script_answers "zz") fresh_proc
           "bcrt1qexample" "zz" ValueError
           (or_introl eq_refl) eq_refl eq_refl eq_refl).
Defined.

(** X16 on a [scriptPubKey] of one blank. *)
Lemma get_mining_script_empty_script_witness :
  exists s',
    get_mining_script (script_answers " ") fresh_proc = (Ok [], s') /\
    MINING_ADDR_HEX s' = Some [] /\
    trace s' =
    trace fresh_proc ++
    [Call_getnewaddress; Call_validateaddress "bcrt1qexample"] /\
    forall env', exists r s'' calls,
      get_mining_script env' s' = (r, s'') /\
      trace s'' = trace s' ++ Call_getnewaddress :: calls.
Proof.
  exact (get_mining_script_empty_script (script_answers " ") fresh_proc
           "bcrt1qexample" " "
           (or_introl eq_refl) eq_refl eq_refl eq_refl).
Defined.

(* ------------------------------------------------------------------ *)
(** ** The text of a target *)

Lemma hex_digit_plain (d : Z) :
  0 <= d < 16 ->
  Ascii.eqb (hex_digit d) "_"%char = false /\
  Ascii.eqb (hex_digit d) "+"%char = false /\
  Ascii.eqb (hex_digit d) "-"%char = false /\
  Ascii.eqb (hex_digit d) "x"%char = false /\
  Ascii.eqb (hex_digit d) "X"%char = false /\
  is_text_space (hex_digit d) = false.
Proof.
  intro H.
  apply (hex_digit_cases d
           (fun d =>
              Ascii.eqb (hex_digit d) "_"%char = false /\
              Ascii.eqb (hex_digit d) "+"%char = false /\
              Ascii.eqb (hex_digit d) "-"%char = false /\
              Ascii.eqb (hex_digit d) "x"%char = false /\
              Ascii.eqb (hex_digit d) "X"%char = false /\
              is_text_space (hex_digit d) = false) H);
    repeat split; reflexivity.
Qed.

(** The digits of a hexadecimal text of bytes, read after a first
    digit. *)
Lemma digits16_hex (b : bytes) :
  forall acc,
    digits16 (hex b) false true acc =
    Some (fold_left (fun acc x => acc * 256 + Z_of_byte x) b acc,
          EmptyString).
Proof.
  induction b as [|x b IH]; intro acc; [reflexivity|].
  destruct (nibbles (Z_of_byte x) (Z_of_byte_range x)) as (Hhi & Hlo & E).
  destruct (hex_digit_plain _ Hhi) as (U1 & _).
  destruct (hex_digit_plain _ Hlo) as (U2 & _).
  cbn [hex digits16 fold_left].
  rewrite U1, (digit_value_hex_digit _ Hhi).
  rewrite U2, (digit_value_hex_digit _ Hlo).
  rewrite IH. f_equal. f_equal. f_equal. lia.
Qed.

(** X17. The text that [bytes.hex] writes for a value of one byte or
    more is read by [int(_, 16)] as the number [int.from_bytes(_, "big")]
    reads from the bytes: a target given as the hexadecimal text of 32
    bytes is compared as the big-endian number of these bytes. *)
Theorem int16_hex (b : bytes) :
  b <> [] -> int16 (hex b) = Ok (int_from_bytes_big b).
Proof.
  intro Hne. destruct b as [|x b]; [contradiction Hne; reflexivity|].
  destruct (nibbles (Z_of_byte x) (Z_of_byte_range x)) as (Hhi & Hlo & E).
  destruct (hex_digit_plain _ Hhi) as (U1 & P1 & M1 & _ & _ & S1).
  destruct (hex_digit_plain _ Hlo) as (U2 & _ & _ & X2 & XX2 & _).
  unfold int16, int_from_bytes_big. cbn [hex skip]. rewrite S1.
  unfold strip_sign. rewrite P1, M1.
  unfold strip_prefix. rewrite X2, XX2, Bool.andb_false_r.
  rewrite U1. cbn [digits16]. rewrite U1, (digit_value_hex_digit _ Hhi).
  rewrite U2, (digit_value_hex_digit _ Hlo).
  rewrite digits16_hex. cbn [skip fold_left].
  rewrite Z.mul_1_l. f_equal. f_equal. lia.
Qed.

(** X17 on the 32 bytes ff of the largest target. *)
Lemma int16_hex_witness :
  int16 (hex (repeat xff 32)) = Ok (int_from_bytes_big (repeat xff 32)).
Proof.
  exact (int16_hex (repeat xff 32) ltac:(discriminate)).
Defined.

(* ------------------------------------------------------------------ *)
(** ** The header assembler on any template *)

Lemma bind_inv {A B} (r : result A) (k : A -> result B) (b : B) :
  bind r k = Ok b -> exists a, r = Ok a /\ k a = Ok b.
Proof.
  destruct r as [a|e]; cbn [bind]; intro H; [|discriminate].
  exists a. split; [reflexivity | exact H].
Qed.

Lemma pack_i_inv (n : Z) (b : bytes) :
  pack_i n = Ok b -> - 2 ^ 31 <= n < 2 ^ 31 /\ b = le_bytes 4 n.
Proof.
  unfold pack_i. intro H.
  destruct (- 2 ^ 31 <=? n) eqn:E1; [|discriminate].
  destruct (n <? 2 ^ 31) eqn:E2; [|discriminate].
  apply Z.leb_le in E1. apply Z.ltb_lt in E2. apply Ok_inj in H.
  split; [lia | symmetry; exact H].
Qed.

(** X18. A header preimage that is built tells how it was built: the
    version fitted 32 signed bits and [curtime] 32 unsigned bits, both hash
    texts were hexadecimal, and the preimage is the five fields in order.
    The widths of the two texts are not checked: the preimage has 40 bytes
    and the bytes of the two texts, which are the 76 bytes of a header only
    when the texts hold 32 and 4 bytes. *)
Theorem header_pre_shape (tmpl : Template) (cb pre : bytes) :
  header_pre tmpl cb = Ok pre ->
  exists prev nbits,
    - 2 ^ 31 <= version tmpl < 2 ^ 31 /\
    0 <= curtime tmpl < 2 ^ 32 /\
    fromhex (previousblockhash tmpl) = Ok prev /\
    fromhex (bits tmpl) = Ok nbits /\
    pre = le_bytes 4 (version tmpl) ++ rev prev ++ dsha256 cb ++
          le_bytes 4 (curtime tmpl) ++ rev nbits /\
    length pre = (40 + length prev + length nbits)%nat.
Proof.
  unfold header_pre. intro H.
  apply bind_inv in H. destruct H as (v & Hv & H).
  apply bind_inv in H. destruct H as (prev & Hprev & H).
  apply bind_inv in H. destruct H as (time & Htime & H).
  apply bind_inv in H. destruct H as (nbits & Hbits & H).
  apply Ok_inj in H.
  apply pack_i_inv in Hv. destruct Hv as [Hv ->].
  apply pack_I_inv in Htime. destruct Htime as [Htime ->].
  exists prev, nbits.
  split; [exact Hv|]. split; [exact Htime|]. split; [exact Hprev|].
  split; [exact Hbits|]. split; [symmetry; exact H|].
  subst pre. repeat rewrite length_app. repeat rewrite length_rev.
  repeat rewrite le_bytes_length. rewrite dsha256_length. lia.
Qed.

(** X18 on a template whose two texts are too short: a preimage of 41
    bytes is built. *)
Lemma header_pre_shape_witness :
  exists prev nbits,
    - 2 ^ 31 <= version short_template < 2 ^ 31 /\
    0 <= curtime short_template < 2 ^ 32 /\
    fromhex (previousblockhash short_template) = Ok prev /\
    fromhex (bits short_template) = Ok nbits /\
    le_bytes 4 (version short_template) ++ rev [x00] ++ dsha256 [] ++
    le_bytes 4 (curtime short_template) ++ rev [] =
    le_bytes 4 (version short_template) ++ rev prev ++ dsha256 [] ++
    le_bytes 4 (curtime short_template) ++ rev nbits /\
    length (le_bytes 4 (version short_template) ++ rev [x00] ++ dsha256 [] ++
            le_bytes 4 (curtime short_template) ++ rev []) =
    (40 + length prev + length nbits)%nat.
Proof.
  exact (header_pre_shape short_template [] _
           (header_pre_ok short_template [] [x00] []
              ltac:(cbn [version short_template]; lia)
              ltac:(cbn [curtime short_template]; lia)
              eq_refl eq_refl)).
Defined.

(* ------------------------------------------------------------------ *)
(** ** What a worker leaves of the cache and of the script *)

(** The script lookup and the coinbase builder do not touch the cache
    object. *)
Lemma get_mining_script_block_template (env : answers) (s s' : proc)
    (r : result bytes) :
  get_mining_script env s = (r, s') -> block_template s' = block_template s.
Proof.
  unfold get_mining_script, mbind, get_global, emit, lift, set_global, ret.
  intro H.
  destruct (MINING_ADDR_HEX s) as [[|b rest]|];
    try (injection H as <- <-; reflexivity);
    (destruct (ans_getnewaddress env) as [addr|];
     [ destruct (ans_validateaddress env) as [h|];
       [ destruct (fromhex h) as [script|e] | ] | ]);
    injection H as <- <-; reflexivity.
Qed.

Lemma create_coinbase_block_template (height : Z) (msg : bytes)
    (env : answers) (s s' : proc) (r : result bytes) :
  create_coinbase height msg env s = (r, s') ->
  block_template s' = block_template s.
Proof.
  unfold create_coinbase. intro H.
  apply mbind_inv in H.
  destruct H as [(hb & s1 & H1 & H) | (e & H1 & _)];
    apply lift_inv in H1; destruct H1 as [_ ->]; [|reflexivity].
  apply mbind_inv in H.
  destruct H as [(sz & s1 & H1 & H) | (e & H1 & _)];
    apply lift_inv in H1; destruct H1 as [_ ->]; [|reflexivity].
  apply mbind_inv in H.
  destruct H as [(sub & s1 & H1 & H) | (e & H1 & _)];
    apply lift_inv in H1; destruct H1 as [_ ->]; [|reflexivity].
  apply mbind_inv in H.
  destruct H as [(spk & s1 & H1 & H) | (e & H1 & _)];
    apply get_mining_script_block_template in H1; [|exact H1].
  apply mbind_inv in H.
  destruct H as [(szp & s2 & H2 & H) | (e & H2 & _)];
    apply lift_inv in H2; destruct H2 as [_ ->]; [|exact H1].
  unfold ret in H. injection H as _ <-. exact H1.
Qed.

(** A cache that holds a template serves one, holds what it serves, and
    leaves the script alone. *)
Lemma cache_get_held (env : answers) (s : proc) (old : Template) :
  template (block_template s) = Some old ->
  exists tmpl s1,
    cache_get env s = (Ok (Some tmpl), s1) /\
    template (block_template s1) = Some tmpl /\
    MINING_ADDR_HEX s1 = MINING_ADDR_HEX s.
Proof.
  intro Ht. unfold cache_get, CachedBlockTemplate_get. rewrite Ht.
  destruct (negb (Qle_bool (now env - last_update (block_template s))
                    BLOCK_TEMPLATE_REFRESH_SECONDS)).
  - destruct (ans_getblocktemplate env) as [new|].
    + exists new. eexists. split; [reflexivity|]. split; reflexivity.
    + exists old. eexists. split; [reflexivity|]. split; [exact Ht|].
      reflexivity.
  - exists old. eexists. split; [reflexivity|]. split; [exact Ht|].
    reflexivity.
Qed.

(** X19. A worker given a cache object that holds a template never
    returns [None], and the object still holds a template when the worker
    ends, however it ends; when the node hands out nothing the object is
    left as it was: the worker goes on with the template held, however old
    it is. *)
Theorem btc_worker_template_kept (nonce_range_start nonce_range_end : Z)
    (env : answers) (s s' : proc) (r : result (option bool))
    (old : Template) :
  template (block_template s) = Some old ->
  btc_worker nonce_range_start nonce_range_end env s = (r, s') ->
  r <> Ok None /\
  (exists held, template (block_template s') = Some held) /\
  (ans_getblocktemplate env = None ->
   block_template s' = block_template s).
Proof.
  intros Ht H. unfold btc_worker in H. unfold mbind at 1 in H.
  assert (Hdown : ans_getblocktemplate env = None ->
                  forall served s1, cache_get env s = (Ok served, s1) ->
                  block_template s1 = block_template s).
  { intros Hn served s1. unfold cache_get, CachedBlockTemplate_get.
    rewrite Hn.
    destruct (match template (block_template s) with
              | Some _ => _
              | None => true
              end); intro E; injection E as _ <-; reflexivity. }
  destruct (cache_get_held env s old Ht) as (tmpl & s1 & Hc & Hheld & _).
  specialize (fun Hn => Hdown Hn _ _ Hc).
  rewrite Hc in H.
  assert (Hgoal : forall s2, block_template s2 = block_template s1 ->
            (exists held, template (block_template s2) = Some held) /\
            (ans_getblocktemplate env = None ->
             block_template s2 = block_template s)).
  { intros s2 E. rewrite E. split; [exists tmpl; exact Hheld | exact Hdown]. }
  unfold mbind at 1 in H.
  destruct (create_coinbase (height tmpl) BTC_GROVER env s1)
    as [[cb|e] s2] eqn:Hcb;
    apply create_coinbase_block_template in Hcb.
  2:{ injection H as <- <-. split; [discriminate | exact (Hgoal _ Hcb)]. }
  unfold mbind at 1, lift at 1 in H.
  destruct (header_pre tmpl cb) as [pre|e].
  2:{ injection H as <- <-. split; [discriminate | exact (Hgoal _ Hcb)]. }
  unfold mbind at 1, lift at 1 in H.
  destruct (int16 (target tmpl)) as [tgt|e].
  2:{ injection H as <- <-. split; [discriminate | exact (Hgoal _ Hcb)]. }
  unfold mbind at 1 in H.
  destruct (search pre cb tgt nonce_range_start nonce_range_end s2)
    as [rs s3] eqn:Hs.
  apply search_outcome in Hs.
  assert (E3 : block_template s3 = block_template s1).
  { destruct Hs as [(n & _ & -> & _) | [_ ->]]; exact Hcb. }
  destruct rs as [found|e].
  - unfold ret in H. injection H as <- <-.
    split; [discriminate | exact (Hgoal _ E3)].
  - injection H as <- <-. split; [discriminate | exact (Hgoal _ E3)].
Qed.

(** An hour after the fetch of the scenario, the node being down, a
    worker searches [0, 1000) on the template held, under the target 0. *)
Lemma stale_worker :
  btc_worker 0 1000 stale_answers (scenario_fetched "0" 1690000000) =
  (Ok (Some false),
   with_trace (scenario_fetched "0" 1690000000) [Call_getblocktemplate]).
Proof.
  apply (btc_worker_steps 0 1000 stale_answers
           (scenario_fetched "0" 1690000000)
           (with_trace (scenario_fetched "0" 1690000000)
              [Call_getblocktemplate])
           (with_trace (scenario_fetched "0" 1690000000)
              [Call_getblocktemplate])
           (with_trace (scenario_fetched "0" 1690000000)
              [Call_getblocktemplate])
           (scenario_template "0") scenario_cb (scenario_pre scenario_cb)
           0 false).
  - vm_compute. reflexivity.
  - apply (create_coinbase_layout 100 BTC_GROVER stale_answers _ _
             [x0f] (repeat x00 20) [x14]).
    + lia.
    + reflexivity.
    + apply (get_mining_script_cached _ _ x00 (repeat x00 19)). reflexivity.
    + reflexivity.
  - apply scenario_header.
  - reflexivity.
  - apply search_nonpositive_target; lia.
Qed.

(** X19 on that worker. *)
Lemma btc_worker_template_kept_witness :
  Ok (Some false) <> Ok None /\
  (exists held,
      template
        (block_template
           (with_trace (scenario_fetched "0" 1690000000)
              [Call_getblocktemplate])) = Some held) /\
  (ans_getblocktemplate stale_answers = None ->
   block_template
     (with_trace (scenario_fetched "0" 1690000000) [Call_getblocktemplate]) =
   block_template (scenario_fetched "0" 1690000000)).
Proof.
  exact (btc_worker_template_kept 0 1000 stale_answers
           (scenario_fetched "0" 1690000000) _ _ (scenario_template "0")
           eq_refl stale_worker).
Defined.

(* ------------------------------------------------------------------ *)
(** ** The same block, found again *)

(** The search does not read the process state: its result and what it
    adds to the trace are the same from every state. *)
Lemma search_loop_uniform (pre cb : bytes) (target : Z) (n : nat) :
  forall nonce, exists r evs, forall t,
    search_loop pre cb target nonce n t = (r, with_trace t evs).
Proof.
  induction n as [|n IH]; intro nonce.
  - exists (Ok false), []. intro t. rewrite with_trace_nil. reflexivity.
  - destruct (Z_lt_le_dec nonce 0) as [Hneg|Hpos].
    { exists (Raise StructError), []. intro t.
      rewrite search_loop_negative by exact Hneg.
      rewrite with_trace_nil. reflexivity. }
    destruct (Z_lt_le_dec nonce (2 ^ 32)) as [Hfit|Hbig].
    2:{ exists (Raise StructError), []. intro t.
        rewrite search_loop_overflow by exact Hbig.
        rewrite with_trace_nil. reflexivity. }
    destruct (digest_int pre nonce <? target) eqn:Hcmp.
    + exists (Ok true),
        [Print_mined nonce; Call_submitblock (full_hex pre nonce cb)].
      intro t. rewrite search_loop_step by lia. rewrite Hcmp. reflexivity.
    + destruct (IH (nonce + 1)) as (r & evs & Hrun). exists r, evs.
      intro t. rewrite search_loop_step by lia. rewrite Hcmp. apply Hrun.
Qed.

Lemma cache_get_global (env : answers) (s s1 : proc)
    (r : result (option Template)) :
  cache_get env s = (r, s1) -> MINING_ADDR_HEX s1 = MINING_ADDR_HEX s.
Proof.
  unfold cache_get.
  destruct (CachedBlockTemplate_get (block_template s) (now env)
              (ans_getblocktemplate env)) as [[served c'] evs].
  intro H. injection H as _ <-. reflexivity.
Qed.

(** With a script stored, what [create_coinbase] returns depends on the
    height and the tag alone, and the state is left as it was. *)
Lemma create_coinbase_resolved (height : Z) (msg : bytes) (b0 : byte)
    (rest : bytes) :
  exists r, forall env s,
    MINING_ADDR_HEX s = Some (b0 :: rest) ->
    create_coinbase height msg env s = (r, s).
Proof.
  unfold create_coinbase.
  destruct (pack_I height) as [hb|e1] eqn:E1.
  2:{ exists (Raise e1). intros env s _. reflexivity. }
  destruct (compact_size (len ([x04] ++ hb ++ msg))) as [sz|e2] eqn:E2.
  2:{ exists (Raise e2). intros env s _.
      unfold mbind at 1, lift at 1. unfold mbind at 1, lift at 1.
      rewrite E2. reflexivity. }
  change (pack_Q (50 * 100000000)) with (Ok (le_bytes 8 5000000000)).
  destruct (compact_size (len (b0 :: rest))) as [szp|e3] eqn:E3.
  - eexists. intros env s Hg.
    unfold mbind at 1, lift at 1. unfold mbind at 1, lift at 1.
    rewrite E2. unfold mbind at 1, lift at 1. unfold mbind at 1.
    rewrite (get_mining_script_cached env s b0 rest Hg).
    unfold mbind at 1, lift at 1. rewrite E3. unfold ret. reflexivity.
  - exists (Raise e3). intros env s Hg.
    unfold mbind at 1, lift at 1. unfold mbind at 1, lift at 1.
    rewrite E2. unfold mbind at 1, lift at 1. unfold mbind at 1.
    rewrite (get_mining_script_cached env s b0 rest Hg).
    unfold mbind at 1, lift at 1. rewrite E3. reflexivity.
Qed.

Lemma with_trace_inj (s : proc) (a b : list event) :
  with_trace s a = with_trace s b -> a = b.
Proof.
  unfold with_trace. intro H. injection H as H.
  apply app_inv_head in H. exact H.
Qed.

(** X20. What a worker submits is settled by the template it is served,
    the script held and its range: a worker that found a block, run again
    on the same range from any state that holds the same script and is
    served the same template, finds the same nonce and submits the same
    text once more.  Nothing records that a block was submitted. *)
Theorem btc_worker_submits_again (nonce_range_start nonce_range_end : Z)
    (env env2 : answers) (s s' t : proc) (b0 : byte) (rest : bytes) :
  btc_worker nonce_range_start nonce_range_end env s =
  (Ok (Some true), s') ->
  MINING_ADDR_HEX s = Some (b0 :: rest) ->
  MINING_ADDR_HEX t = Some (b0 :: rest) ->
  get_served (block_template t) (now env2) (ans_getblocktemplate env2) =
  get_served (block_template s) (now env) (ans_getblocktemplate env) ->
  exists s2 t2 pre cb n,
    quiet s s2 /\ s' = after_find s2 pre cb n /\
    quiet t t2 /\
    btc_worker nonce_range_start nonce_range_end env2 t =
    (Ok (Some true), after_find t2 pre cb n).
Proof.
  intros H Hgs Hgt Hserved. pose proof H as H0.
  apply btc_worker_outcome in H.
  destruct H as [(tmpl & s1 & cb & s2 & pre & tgt & n & Hc & Hcb & Hpre &
                  Htgt & _ & _ & _ & Hs' & Q) | [Hr _]];
    [|contradiction Hr; reflexivity].
  (* the first run, stage by stage *)
  pose proof (cache_get_global _ _ _ _ Hc) as Hg1. rewrite Hgs in Hg1.
  destruct (create_coinbase_resolved (height tmpl) BTC_GROVER b0 rest)
    as (rc & Hrc).
  rewrite (Hrc env s1 Hg1) in Hcb.
  apply pair_equal_spec in Hcb. destruct Hcb as [Erc ->]. subst rc.
  destruct (search_loop_uniform pre cb tgt
              (Z.to_nat (nonce_range_end - nonce_range_start))
              nonce_range_start) as (r & evs & Hrun).
  unfold btc_worker in H0.
  unfold mbind at 1 in H0. rewrite Hc in H0.
  unfold mbind at 1 in H0. rewrite (Hrc env s2 Hg1) in H0.
  unfold mbind at 1, lift at 1 in H0. rewrite Hpre in H0.
  unfold mbind at 1, lift at 1 in H0. rewrite Htgt in H0.
  unfold mbind at 1, search in H0. rewrite Hrun in H0.
  destruct r as [found|e]; [|discriminate].
  unfold ret in H0. apply pair_equal_spec in H0. destruct H0 as [Hf Hev].
  apply Ok_inj in Hf. assert (found = true) by congruence. subst found.
  rewrite Hs' in Hev. unfold after_find in Hev.
  apply with_trace_inj in Hev. subst evs.
  (* the second run *)
  destruct (cache_get_quiet env2 t) as (served & t1 & Hc2 & Es & Q2).
  destruct (cache_get_quiet env s) as (served1 & s1' & Hc1 & Es1 & _).
  rewrite Hc in Hc1. apply pair_equal_spec in Hc1. destruct Hc1 as [Hc1 _].
  apply Ok_inj in Hc1. rewrite <- Hc1 in Es1.
  rewrite Hserved, <- Es1 in Es. subst served.
  pose proof (cache_get_global _ _ _ _ Hc2) as Hg2. rewrite Hgt in Hg2.
  pose proof (Hrc env2 t1 Hg2) as Hcb2.
  exists s2, t1, pre, cb, n.
  split; [exact Q|]. split; [exact Hs'|]. split; [exact Q2|].
  unfold btc_worker.
  unfold mbind at 1. rewrite Hc2.
  unfold mbind at 1. rewrite Hcb2.
  unfold mbind at 1, lift at 1. rewrite Hpre.
  unfold mbind at 1, lift at 1. rewrite Htgt.
  unfold mbind at 1, search. rewrite Hrun. reflexivity.
Qed.

(** X20 on the scenario: after the find of the nonce 1000 and the reset,
    a worker given [1000, 2000) once more, the node handing out the same
    template a second later, submits the same text again. *)
Lemma btc_worker_submits_again_witness :
  exists s2 t2 pre cb n,
    quiet scenario_proc s2 /\
    after_find (scenario_fetched permissive_target 1690000000)
               (scenario_pre scenario_cb) scenario_cb 1000 =
    after_find s2 pre cb n /\
    quiet scenario_after_reset t2 /\
    btc_worker 1000 2000 (scenario_answers permissive_target 1690000001)
               scenario_after_reset =
    (Ok (Some true), after_find t2 pre cb n).
Proof.
  exact (btc_worker_submits_again 1000 2000
           (scenario_answers permissive_target 1690000000)
           (scenario_answers permissive_target 1690000001)
           scenario_proc _ scenario_after_reset x00 (repeat x00 19)
           scenario_worker_finds_1000 eq_refl eq_refl eq_refl).
Defined.

(* ------------------------------------------------------------------ *)
(** ** The program as a whole *)

(** X21. [main] reaches its loop unless the node answers
    [validateaddress] with a [scriptPubKey] that is no hexadecimal text,
    the one case in which it ends with that [ValueError]; and it enters the
    loop with the counter at 0, no template held, and no call made but
    those of the script lookup. *)
Theorem main_init_outcome (env : answers) :
  (forall e,
      main_init env = Raise e <->
      exists addr h,
        ans_getnewaddress env = Some addr /\
        ans_validateaddress env = Some h /\
        fromhex h = Raise e) /\
  (forall st,
      main_init env = Ok st ->
      nonce_counter st = 0 /\
      block_template (process st) = CachedBlockTemplate_init /\
      quiet fresh_proc (process st) /\
      existsb (fun ev => match ev with
                         | Call_getblocktemplate => true
                         | _ => false
                         end) (trace (process st)) = false).
Proof.
  unfold main_init, get_mining_script, mbind, get_global, emit, lift,
    set_global, ret.
  cbn [MINING_ADDR_HEX].
  destruct (ans_getnewaddress env) as [addr|].
  - destruct (ans_validateaddress env) as [h|].
    + destruct (fromhex h) as [script|e0] eqn:Hh.
      * split.
        -- intro e. split; [discriminate|].
           intros (addr' & h' & Ha & Hv & He).
           injection Hv as <-. rewrite Hh in He. discriminate.
        -- intros st H. injection H as <-.
           split; [reflexivity|]. split; [reflexivity|].
           split; [|reflexivity].
           exists [Call_getnewaddress; Call_validateaddress addr].
           split; reflexivity.
      * split.
        -- intro e. split.
           ++ intro H. injection H as <-. exists addr, h.
              split; [reflexivity|]. split; [reflexivity | exact Hh].
           ++ intros (addr' & h' & Ha & Hv & He).
              injection Hv as <-. rewrite Hh in He.
              injection He as <-. reflexivity.
        -- intros st H. discriminate.
    + split.
      * intro e. split; [discriminate|].
        intros (addr' & h' & _ & Hv & _). discriminate.
      * intros st H. injection H as <-.
        split; [reflexivity|]. split; [reflexivity|].
        split; [|reflexivity].
        exists [Call_getnewaddress; Call_validateaddress addr].
        split; reflexivity.
  - split.
    + intro e. split; [discriminate|].
      intros (addr' & h' & Ha & _). discriminate.
    + intros st H. injection H as <-.
      split; [reflexivity|]. split; [reflexivity|].
      split; [|reflexivity].
      exists [Call_getnewaddress]. split; reflexivity.
Qed.

(** What a turn does to the counter. *)
Lemma main_wave_counter (CORES : nat) (envs : nat -> answers)
    (st st' : coordinator) :
  main_wave CORES envs st = Ok st' ->
  nonce_counter st' = nonce_counter st + 1000 * Z.of_nat CORES \/
  nonce_counter st' = 0.
Proof.
  unfold main_wave. pose proof (dispatch_counter CORES 0 envs st) as Hc.
  destruct (dispatch CORES 0 envs st) as [outs st1]. cbn [snd] in Hc.
  destruct (collect outs) as [[|]|e]; cbn [bind]; intro H;
    [| |discriminate]; injection H as <-.
  - right. reflexivity.
  - left. exact Hc.
Qed.

(** X22. As long as the loop runs, the counter is a whole number of
    turns of 1000 nonces per worker above the value it started from, or
    above 0, from which a find restarts it: entered at 0, the loop only
    ever hands out the ranges [1000 m, 1000 (m + 1)) with m counted from a
    multiple of the number of workers. *)
Theorem main_loop_counter (CORES : nat) (world : nat -> nat -> answers)
    (k w : nat) (st st' : coordinator) :
  main_loop CORES world k w st = Ok st' ->
  nonce_counter st' =
  nonce_counter st + 1000 * Z.of_nat CORES * Z.of_nat k \/
  exists j, (j < k)%nat /\
            nonce_counter st' = 1000 * Z.of_nat CORES * Z.of_nat j.
Proof.
  revert w st. induction k as [|k IH]; intros w st H.
  - cbn [main_loop] in H. injection H as <-. left. lia.
  - cbn [main_loop] in H.
    destruct (main_wave CORES (world w) st) as [st1|e] eqn:Hw;
      cbn [bind] in H; [|discriminate].
    apply main_wave_counter in Hw. apply IH in H.
    destruct H as [H | (j & Hj & H)].
    + destruct Hw as [Hw|Hw].
      * left. lia.
      * right. exists k. split; [lia|]. lia.
    + right. exists j. split; [lia | exact H].
Qed.

(** X22 on three turns of 4 workers with the node down. *)
Lemma main_loop_counter_witness :
  nonce_counter
    {| nonce_counter := 12000;
       process := with_trace fresh_proc
                    (repeat Call_getblocktemplate 12) |} =
  nonce_counter {| nonce_counter := 0; process := fresh_proc |} +
  1000 * Z.of_nat 4 * Z.of_nat 3 \/
  exists j, (j < 3)%nat /\
            nonce_counter
              {| nonce_counter := 12000;
                 process := with_trace fresh_proc
                              (repeat Call_getblocktemplate 12) |} =
            1000 * Z.of_nat 4 * Z.of_nat j.
Proof.
  exact (main_loop_counter 4 (fun _ _ => failing_answers []) 3 0
           {| nonce_counter := 0; process := fresh_proc |}
           {| nonce_counter := 12000;
              process := with_trace fresh_proc
                           (repeat Call_getblocktemplate 12) |}
           eq_refl).
Defined.

(* ------------------------------------------------------------------ *)
(** ** Submissions over a whole run *)








